(** * pyenphase: Envoy authentication ([src/pyenphase/auth.py])

    A shallow embedding of [EnvoyTokenAuth] and [EnvoyLegacyAuth].

    - Python objects are records.  An attribute that [__init__] does not
      assign ([_cookies], [_is_consumer], [_manager_token]) is an [attr]:
      reading it while [Unset] raises [AttributeError].  [_token] is
      [str | None], an [option string].
    - Exceptions are the values of [exn]; a method returns a [result].
      [assert] statements are executed.
    - [async] methods that talk to the network are state passing functions
      over the object and a [World] (counters of the environment plus the
      trace of I/O the method performed).  Opening and closing the
      dedicated [httpx.AsyncClient] leaves no trace.
    - The collaborators the module does not define are [Section] variables:
      the local httpx client handed to [setup], the cloud service behind the
      dedicated client, [random.random], [orjson.loads], [json.loads] and
      the base64url decoder of the JWT library.
    - The [tenacity] decorator on [_post_json_with_cloud_client] retries
      without bound; the loop is modelled with fuel, and [OutOfFuel] stands
      for a call that has not returned yet.  The wait follows tenacity 8:
      [multiplier * 2 ** (attempt_number - 1)], capped, times a random
      number; seconds are rational numbers.
    - [jwt.decode] follows PyJWT 2, with the validation of the [kid] and
      [crit] header parameters. *)

From stdpp Require Import base strings gmap list pretty.
From Stdlib Require Import Ascii QArith Lqa Floats.
Close Scope Q_scope.

(** ** Python values *)

(** What [orjson.loads] / [json.loads] return: [None], [bool], [int],
    [float], [str], [list], [dict]. *)
#[local] Unset Elimination Schemes.
Inductive json : Type :=
| JNull
| JBool (b : bool)
| JInt (n : Z)
| JFloat (f : float)
| JString (s : string)
| JArray (l : list json)
| JObject (o : gmap string json).
#[local] Set Elimination Schemes.

(** The httpx exception classes (leaves and the bases that the retry
    predicate names). *)
Inductive httpx_exn : Set :=
| TimeoutException | ConnectTimeout | ReadTimeout | WriteTimeout | PoolTimeout
| NetworkError | ConnectError | ReadError | WriteError | CloseError
| ProtocolError | LocalProtocolError | RemoteProtocolError
| ProxyError | UnsupportedProtocol | DecodingError | TooManyRedirects.

Inductive exn : Type :=
| EnvoyAuthenticationError (msg : string)
| AssertionError
| AttributeError (name : string)
| KeyError (key : string)
| TypeError
| DecodeError (msg : string)
| InvalidTokenError
| HTTPXError (e : httpx_exn).

Inductive result (A : Type) : Type :=
| Return (v : A)
| Raise (e : exn)
| OutOfFuel.
Arguments Return {A} v.
Arguments Raise {A} e.
Arguments OutOfFuel {A}.

(** An instance attribute that may not have been assigned yet. *)
Inductive attr (A : Type) : Type :=
| Unset
| Bound (v : A).
Arguments Unset {A}.
Arguments Bound {A} v.

Definition getattr {A : Type} (name : string) (a : attr A) : result A :=
  match a with
  | Bound v => Return v
  | Unset => Raise (AttributeError name)
  end.

(** [not x] for [x : str | None]. *)
Definition falsy (x : option string) : bool :=
  match x with
  | None => true
  | Some s => bool_decide (s = "")
  end.

(** [obj[key]] for a value produced by a JSON parser and a [str] key. *)
Definition getitem (obj : json) (key : string) : result json :=
  match obj with
  | JObject o =>
      match o !! key with
      | Some v => Return v
      | None => Raise (KeyError key)
      end
  | _ => Raise TypeError
  end.

(** [isinstance(e, cls)] on the httpx hierarchy, for the three classes of
    the retry predicate. *)
Definition is_NetworkError (e : httpx_exn) : bool :=
  match e with
  | NetworkError | ConnectError | ReadError | WriteError | CloseError => true
  | _ => false
  end.

Definition is_TimeoutException (e : httpx_exn) : bool :=
  match e with
  | TimeoutException | ConnectTimeout | ReadTimeout | WriteTimeout
  | PoolTimeout => true
  | _ => false
  end.

Definition is_RemoteProtocolError (e : httpx_exn) : bool :=
  match e with
  | RemoteProtocolError => true
  | _ => false
  end.

(** ** HTTP *)

Record Response : Type := mkResponse {
  status_code : Z;
  text : string;
  resp_cookies : gmap string string;
}.

(** What a request comes back with: a response, or an exception. *)
Inductive answer : Type :=
| Responds (r : Response)
| Fails (e : exn).

(** The local client passed to [setup]: [client.get(url, headers=...)]. *)
Definition Client : Type := string → gmap string string → answer.

(** The cloud service as seen through the dedicated client:
    [cloud_client.post(url, json=json, data=data)], indexed by the number of
    POSTs issued before, so that an attempt and its retry may differ. *)
Definition Cloud : Type :=
  nat → string → option json → option (gmap string string) → answer.

Inductive event : Type :=
| EvGet (url : string) (headers : gmap string string)
| EvPost (url : string) (body : option json)
         (data : option (gmap string string))
| EvSleep (seconds : Q).

Record World : Type := mkWorld {
  posts : nat;          (* cloud POSTs issued so far *)
  draws : nat;          (* random numbers drawn so far *)
  trace : list event;   (* I/O performed so far, oldest first *)
}.

(** ** The authenticator objects *)

Record EnvoyTokenAuth : Type := mkEnvoyTokenAuth {
  host : string;
  cloud_username : option string;
  cloud_password : option string;
  envoy_serial : option string;
  _token : option string;
  _cookies : attr (gmap string string);
  _is_consumer : attr json;
  _manager_token : attr json;
}.

Record EnvoyLegacyAuth : Type := mkEnvoyLegacyAuth {
  legacy_host : string;
  local_username : string;
  local_password : string;
}.

Module TokenAuth.

(** [EnvoyTokenAuth.__init__]: only the five constructor arguments are
    stored. *)
Definition init (host : string) (cloud_username cloud_password
    envoy_serial token : option string) : EnvoyTokenAuth :=
  {| host := host;
     cloud_username := cloud_username;
     cloud_password := cloud_password;
     envoy_serial := envoy_serial;
     _token := token;
     _cookies := Unset;
     _is_consumer := Unset;
     _manager_token := Unset |}.

Definition JSON_LOGIN_URL : string :=
  "https://enlighten.enphaseenergy.com/login/login.json?".
Definition TOKEN_URL : string := "https://entrez.enphaseenergy.com/tokens".

(** *** Properties *)

Definition token (self : EnvoyTokenAuth) : result string :=
  match _token self with
  | Some t => Return t
  | None => Raise AssertionError
  end.

Definition manager_token (self : EnvoyTokenAuth) : result json :=
  match getattr "_manager_token" (_manager_token self) with
  | Return JNull => Raise AssertionError
  | r => r
  end.

Definition cookies (self : EnvoyTokenAuth) : result (gmap string string) :=
  getattr "_cookies" (_cookies self).

Definition is_consumer (self : EnvoyTokenAuth) : result json :=
  getattr "_is_consumer" (_is_consumer self).

Definition auth (self : EnvoyTokenAuth) : option (string * string) := None.

Definition headers (self : EnvoyTokenAuth) : result (gmap string string) :=
  match token self with
  | Return t => Return {[ "Authorization" := "Bearer " +:+ t ]}
  | Raise e => Raise e
  | OutOfFuel => OutOfFuel
  end.

Definition get_endpoint_url (self : EnvoyTokenAuth) (endpoint : string)
    : string :=
  "https://" +:+ host self +:+ endpoint.

End TokenAuth.

Module LegacyAuth.

Definition auth (self : EnvoyLegacyAuth) : option (string * string) :=
  if bool_decide (local_username self = "")
     || bool_decide (local_password self = "")
  then None
  else Some (local_username self, local_password self).

Definition setup (self : EnvoyLegacyAuth) (client : Client)
    : result unit * EnvoyLegacyAuth :=
  (Return (), self).

Definition headers (self : EnvoyLegacyAuth) : gmap string string := ∅.

Definition get_endpoint_url (self : EnvoyLegacyAuth) (endpoint : string)
    : string :=
  "http://" +:+ legacy_host self +:+ endpoint.

Definition cookies (self : EnvoyLegacyAuth) : gmap string string := ∅.

End LegacyAuth.

(** ** Methods with effects *)

(** A method body: it reads and writes [self] and the world, and returns,
    raises, or is still running when the fuel is spent. *)
Definition M (A : Type) : Type :=
  EnvoyTokenAuth → World → result A * EnvoyTokenAuth * World.

#[export] Instance M_ret : MRet M := λ A v self w, (Return v, self, w).

#[export] Instance M_bind : MBind M := λ A B f m self w,
  match m self w with
  | (Return v, self', w') => f v self' w'
  | (Raise e, self', w') => (Raise e, self', w')
  | (OutOfFuel, self', w') => (OutOfFuel, self', w')
  end.

Definition raise {A : Type} (e : exn) : M A := λ self w, (Raise e, self, w).

Definition this : M EnvoyTokenAuth := λ self w, (Return self, self, w).

Definition assign (f : EnvoyTokenAuth → EnvoyTokenAuth) : M unit :=
  λ self w, (Return (), f self, w).

Definition lift {A : Type} (r : result A) : M A := λ self w, (r, self, w).

Definition set_token (t : option string) (self : EnvoyTokenAuth)
    : EnvoyTokenAuth :=
  {| host := host self;
     cloud_username := cloud_username self;
     cloud_password := cloud_password self;
     envoy_serial := envoy_serial self;
     _token := t;
     _cookies := _cookies self;
     _is_consumer := _is_consumer self;
     _manager_token := _manager_token self |}.

Definition set_cookies (c : gmap string string) (self : EnvoyTokenAuth)
    : EnvoyTokenAuth :=
  {| host := host self;
     cloud_username := cloud_username self;
     cloud_password := cloud_password self;
     envoy_serial := envoy_serial self;
     _token := _token self;
     _cookies := Bound c;
     _is_consumer := _is_consumer self;
     _manager_token := _manager_token self |}.

Definition set_is_consumer (v : json) (self : EnvoyTokenAuth)
    : EnvoyTokenAuth :=
  {| host := host self;
     cloud_username := cloud_username self;
     cloud_password := cloud_password self;
     envoy_serial := envoy_serial self;
     _token := _token self;
     _cookies := _cookies self;
     _is_consumer := Bound v;
     _manager_token := _manager_token self |}.

Definition set_manager_token (v : json) (self : EnvoyTokenAuth)
    : EnvoyTokenAuth :=
  {| host := host self;
     cloud_username := cloud_username self;
     cloud_password := cloud_password self;
     envoy_serial := envoy_serial self;
     _token := _token self;
     _cookies := _cookies self;
     _is_consumer := _is_consumer self;
     _manager_token := Bound v |}.

(** *** tenacity *)

(** [retry_if_exception_type((httpx.NetworkError, httpx.TimeoutException,
    httpx.RemoteProtocolError))]. *)
Definition retry_if_exception_type (e : exn) : bool :=
  match e with
  | HTTPXError h =>
      is_NetworkError h || is_TimeoutException h || is_RemoteProtocolError h
  | _ => false
  end.

(** [wait_exponential(multiplier, max)] with [exp_base = 2] and [min = 0]:
    [max(0, min(multiplier * 2 ** (attempt_number - 1), max))]. *)
Definition wait_exponential (multiplier max : Z) (attempt_number : nat) : Z :=
  Z.max 0 (Z.min (multiplier * 2 ^ Z.of_nat (attempt_number - 1)) max).

(** [wait_random_exponential(multiplier, max)]: [random.uniform(0, high)]
    with [high] the exponential wait, that is [high * random.random()].
    The product is exact here; the float the program computes is within
    the relative error [2 ** -53] of it. *)
Definition wait_random_exponential (multiplier max : Z)
    (attempt_number : nat) (u : Q) : Q :=
  (inject_Z (wait_exponential multiplier max attempt_number) * u)%Q.

Record RetryPolicy : Type := mkRetryPolicy {
  retry_on : exn → bool;
  wait : nat → Q → Q;
}.

Section Environment.

(** [random.random()], by number of earlier draws. *)
Variable random : nat → Q.

Definition sleep (seconds : Q) (w : World) : World :=
  {| posts := posts w; draws := draws w;
     trace := trace w ++ [EvSleep seconds] |}.

Definition draw (w : World) : Q * World :=
  (random (draws w),
   {| posts := posts w; draws := S (draws w); trace := trace w |}).

(** The [@retry] decorator with the default [stop_never]: call [fn]; an
    exception the predicate accepts is followed by a sleep and another
    attempt, any other one is raised again. *)
Fixpoint retry {A : Type} (policy : RetryPolicy) (fuel : nat)
    (attempt_number : nat) (fn : M A) : M A :=
  match fuel with
  | O => λ self w, (OutOfFuel, self, w)
  | S fuel' => λ self w,
      match fn self w with
      | (Raise e, self', w') =>
          if retry_on policy e then
            let '(u, w'') := draw w' in
            retry policy fuel' (S attempt_number) fn self'
              (sleep (wait policy attempt_number u) w'')
          else (Raise e, self', w')
      | r => r
      end
  end.

(** *** The cloud round trip *)

Variable cloud : Cloud.

(** [await cloud_client.post(url, json=json, data=data)]. *)
Definition cloud_client_post (url : string)
    (data : option (gmap string string)) (body : option json) : M Response :=
  λ self w,
    let w' := {| posts := S (posts w); draws := draws w;
                 trace := trace w ++ [EvPost url body data] |} in
    match cloud (posts w) url body data with
    | Responds r => (Return r, self, w')
    | Fails e => (Raise e, self, w')
    end.

Definition cloud_retry_policy : RetryPolicy :=
  {| retry_on := retry_if_exception_type;
     wait := wait_random_exponential 2 3 |}.

Definition _post_json_with_cloud_client (fuel : nat) (url : string)
    (data : option (gmap string string)) (body : option json) : M Response :=
  retry cloud_retry_policy fuel 1 (cloud_client_post url data body).

(** [orjson.loads]: [None] when it raises [orjson.JSONDecodeError]. *)
Variable orjson_loads : string → option json.

Definition login_failed_msg (r : Response) : string :=
  "Unable to login to Enlighten to obtain session ID from "
  +:+ TokenAuth.JSON_LOGIN_URL +:+ ": "
  +:+ pretty (status_code r) +:+ ": " +:+ text r.

Definition decode_failed_msg (r : Response) : string :=
  "Unable to decode response from Enlighten: "
  +:+ pretty (status_code r) +:+ ": " +:+ text r.

Definition token_failed_msg (r : Response) : string :=
  "Unable to obtain token for Envoy authentication from "
  +:+ TokenAuth.TOKEN_URL +:+ ": "
  +:+ pretty (status_code r) +:+ ": " +:+ text r.

Definition no_credentials_msg : string :=
  "Your firmware requires token authentication, "
  +:+ " but no cloud credentials were provided to obtain the token.".

Definition no_serial_msg : string :=
  "Your firmware requires token authentication, "
  +:+ "but no envoy serial number was provided to obtain the token.".

(** The value of an attribute of type [str | None] once it is known to be
    truthy. *)
Definition str_of (x : option string) : string := default "" x.

Definition _obtain_token (fuel : nat) : M string :=
  self ← this;
  if falsy (cloud_username self) || falsy (cloud_password self)
  then raise (EnvoyAuthenticationError no_credentials_msg)
  else
  if falsy (envoy_serial self)
  then raise (EnvoyAuthenticationError no_serial_msg)
  else
  response ← _post_json_with_cloud_client fuel TokenAuth.JSON_LOGIN_URL
    (Some {[ "user[email]" := str_of (cloud_username self);
             "user[password]" := str_of (cloud_password self) ]})
    None;
  if bool_decide (status_code response ≠ 200%Z)
  then raise (EnvoyAuthenticationError (login_failed_msg response))
  else
  match orjson_loads (text response) with
  | None => raise (EnvoyAuthenticationError (decode_failed_msg response))
  | Some response =>
    v ← lift (getitem response "is_consumer");
    assign (set_is_consumer v);;
    v ← lift (getitem response "manager_token");
    assign (set_manager_token v);;
    session_id ← lift (getitem response "session_id");
    self ← this;
    response ← _post_json_with_cloud_client fuel TokenAuth.TOKEN_URL
      None
      (Some (JObject {[ "session_id" := session_id;
                        "serial_num" := JString (str_of (envoy_serial self));
                        "username" := JString (str_of (cloud_username self)) ]}));
    if bool_decide (status_code response ≠ 200%Z)
    then raise (EnvoyAuthenticationError (token_failed_msg response))
    else mret (text response)
  end.

Definition refresh (fuel : nat) : M unit :=
  t ← _obtain_token fuel;
  assign (set_token (Some t)).

(** *** setup *)

Definition no_token_msg : string :=
  "Unable to obtain token for Envoy authentication.".
Definition not_verified_msg : string :=
  "Unable to verify token for Envoy authentication.".

(** [await client.get(url, headers=headers)]. *)
Definition client_get (client : Client) (url : string)
    (headers : gmap string string) : M Response :=
  λ self w,
    let w' := {| posts := posts w; draws := draws w;
                 trace := trace w ++ [EvGet url headers] |} in
    match client url headers with
    | Responds r => (Return r, self, w')
    | Fails e => (Raise e, self, w')
    end.

Definition setup (fuel : nat) (client : Client) : M unit :=
  self ← this;
  (if falsy (_token self)
   then t ← _obtain_token fuel; assign (set_token (Some t))
   else mret ());;
  self ← this;
  if falsy (_token self)
  then raise (EnvoyAuthenticationError no_token_msg)
  else
  t ← lift (TokenAuth.token self);
  req ← client_get client ("https://" +:+ host self +:+ "/auth/check_jwt")
          {[ "Authorization" := "Bearer " +:+ t ]};
  if bool_decide (status_code req ≠ 200%Z)
  then raise (EnvoyAuthenticationError not_verified_msg)
  else assign (set_cookies (resp_cookies req)).

End Environment.

(** ** The token's expiry *)

#[export] Instance result_ret : MRet result := λ A v, Return v.

#[export] Instance result_bind : MBind result := λ A B f r,
  match r with
  | Return v => f v
  | Raise e => Raise e
  | OutOfFuel => OutOfFuel
  end.

(** [s.split(".", 1)] when it yields two parts. *)
Fixpoint split_once (s : string) : option (string * string) :=
  match s with
  | EmptyString => None
  | String c s' =>
      if Ascii.eqb c "."%char then Some (EmptyString, s')
      else match split_once s' with
           | Some (a, b) => Some (String c a, b)
           | None => None
           end
  end.

(** [s.rsplit(".", 1)] when it yields two parts. *)
Fixpoint rsplit_once (s : string) : option (string * string) :=
  match s with
  | EmptyString => None
  | String c s' =>
      match rsplit_once s' with
      | Some (a, b) => Some (String c a, b)
      | None => if Ascii.eqb c "."%char then Some (EmptyString, s') else None
      end
  end.

Definition is_dict (j : json) : bool :=
  match j with
  | JObject _ => true
  | _ => false
  end.

(** [header.get("b64", True) is False]. *)
Definition b64_is_false (header : json) : bool :=
  match header with
  | JObject o =>
      match o !! "b64" with
      | Some (JBool false) => true
      | _ => false
      end
  | _ => false
  end.

(** A ["kid"] header parameter must be a [str]. *)
Definition validate_kid (header : gmap string json) : bool :=
  match header !! "kid" with
  | None | Some (JString _) => true
  | Some _ => false
  end.

(** The critical extensions the library understands. *)
Definition supported_crit : list string := ["b64"].

(** A ["crit"] header parameter must be a non-empty list of names of
    supported extensions that the header carries. *)
Definition validate_crit (header : gmap string json) : bool :=
  match header !! "crit" with
  | None => true
  | Some (JArray (ext :: exts)) =>
      forallb
        (λ ext,
           match ext with
           | JString name =>
               bool_decide (name ∈ supported_crit)
               && bool_decide (is_Some (header !! name))
           | _ => false
           end)
        (ext :: exts)
  | Some _ => false
  end.

(** The message of the [DecodeError] for a header with ["b64": false]. *)
Definition detached_payload_msg : string :=
  "It is required that you pass in a value for the "
  +:+ String "034" "detached_payload"
  +:+ String "034" " argument to decode a message having the b64 header set to false.".

Section JWT.

(** [json.loads] of the Python library: [None] when it raises a
    [ValueError], whose text is then [json_error]. *)
Variable json_loads : string → option json.
Variable json_error : string → string.

(** [jwt.utils.base64url_decode]: [None] when it raises ([TypeError],
    [binascii.Error]). *)
Variable base64url_decode : string → option string.

(** [jwt.decode(token, options={"verify_signature": False})] of PyJWT 2:
    the token is split at its last and at its first dot, the three segments
    are decoded, the header is parsed and must be a JSON object with a valid
    [kid] and [crit]; a header with ["b64": false] announces a detached
    payload, which is not passed; the payload is parsed and must be a JSON
    object. Neither the signature nor a claim is verified. *)
Definition jwt_decode (token : string) : result json :=
  match rsplit_once token with
  | None => Raise (DecodeError "Not enough segments")
  | Some (signing_input, crypto_segment) =>
  match split_once signing_input with
  | None => Raise (DecodeError "Not enough segments")
  | Some (header_segment, payload_segment) =>
  match base64url_decode header_segment with
  | None => Raise (DecodeError "Invalid header padding")
  | Some header_data =>
  match json_loads header_data with
  | None =>
      Raise (DecodeError ("Invalid header string: " +:+ json_error header_data))
  | Some header =>
  match header with
  | JObject headers =>
  match base64url_decode payload_segment with
  | None => Raise (DecodeError "Invalid payload padding")
  | Some payload =>
  match base64url_decode crypto_segment with
  | None => Raise (DecodeError "Invalid crypto padding")
  | Some signature =>
  if negb (validate_kid headers && validate_crit headers)
  then Raise InvalidTokenError
  else
  if b64_is_false header
  then Raise (DecodeError detached_payload_msg)
  else
  match json_loads payload with
  | None =>
      Raise (DecodeError ("Invalid payload string: " +:+ json_error payload))
  | Some payload =>
  if negb (is_dict payload)
  then Raise (DecodeError "Invalid payload string: must be a json object")
  else Return payload
  end end end
  | _ => Raise (DecodeError "Invalid header string: must be a json object")
  end end end end end.

Definition expire_timestamp (self : EnvoyTokenAuth) : result json :=
  t ← TokenAuth.token self;
  jwt_payload ← jwt_decode t;
  getitem jwt_payload "exp".

End JWT.

(** ** Concrete collaborators

    Executable stand-ins for the library functions above, used to run the
    model on concrete inputs.  [loads] reads the JSON texts made of objects,
    arrays, strings without escapes, integers, [true], [false] and [null];
    [base64url_decode] reads the unpadded base64 of RFC 4648 over the
    URL-safe alphabet, with zero trailing bits.  On such inputs they agree
    with the Python functions; every other input is rejected.  The text of
    a JSON error is not reproduced. *)
Module Demo.

Definition dquote : ascii := "034"%char.

(** [dq s] is [s] with each apostrophe replaced by a double quote. *)
Fixpoint dq (s : string) : string :=
  match s with
  | EmptyString => EmptyString
  | String c s' => String (if Ascii.eqb c "'"%char then dquote else c) (dq s')
  end.

Definition is_ws (c : ascii) : bool :=
  Ascii.eqb c " "%char || Ascii.eqb c "009"%char
  || Ascii.eqb c "010"%char || Ascii.eqb c "013"%char.

Fixpoint skip_ws (s : string) : string :=
  match s with
  | String c s' => if is_ws c then skip_ws s' else s
  | EmptyString => EmptyString
  end.

(** The characters up to the closing quote, and what follows it. *)
Fixpoint read_string (s : string) : option (string * string) :=
  match s with
  | EmptyString => None
  | String c s' =>
      if Ascii.eqb c dquote then Some (EmptyString, s')
      else if Ascii.eqb c "\"%char || (N_of_ascii c <? 32)%N then None
      else match read_string s' with
           | Some (a, r) => Some (String c a, r)
           | None => None
           end
  end.

Definition digit (c : ascii) : option Z :=
  let n := Z.of_N (N_of_ascii c) in
  if ((48 <=? n) && (n <=? 57))%Z then Some (n - 48)%Z else None.

Fixpoint read_digits (s : string) (acc : Z) : Z * string :=
  match s with
  | String c s' =>
      match digit c with
      | Some d => read_digits s' (10 * acc + d)%Z
      | None => (acc, s)
      end
  | EmptyString => (acc, s)
  end.

Definition starts_fraction (s : string) : bool :=
  match s with
  | String c _ =>
      Ascii.eqb c "."%char || Ascii.eqb c "e"%char || Ascii.eqb c "E"%char
  | EmptyString => false
  end.

(** An integer literal without leading zeros and without fraction. *)
Definition read_nat (s : string) : option (Z * string) :=
  match s with
  | String c s' =>
      match digit c with
      | Some d =>
          let '(n, r) := read_digits s' d in
          if (d =? 0)%Z && negb (String.eqb r s') then None
          else if starts_fraction r then None
          else Some (n, r)
      | None => None
      end
  | EmptyString => None
  end.

Definition strip_prefix (p s : string) : option string :=
  if String.prefix p s
  then Some (String.substring (String.length p)
               (String.length s - String.length p) s)
  else None.

Fixpoint parse_value (fuel : nat) (s : string) : option (json * string) :=
  match fuel with
  | O => None
  | S fuel' =>
      match skip_ws s with
      | String c r =>
          if Ascii.eqb c "{"%char then
            match skip_ws r with
            | String c' r' =>
                if Ascii.eqb c' "}"%char then Some (JObject ∅, r')
                else parse_members fuel' (skip_ws r) ∅
            | EmptyString => None
            end
          else if Ascii.eqb c "["%char then
            match skip_ws r with
            | String c' r' =>
                if Ascii.eqb c' "]"%char then Some (JArray [], r')
                else parse_elements fuel' r []
            | EmptyString => None
            end
          else if Ascii.eqb c dquote then
            match read_string r with
            | Some (str, r') => Some (JString str, r')
            | None => None
            end
          else if Ascii.eqb c "-"%char then
            match read_nat r with
            | Some (n, r') => Some (JInt (- n), r')
            | None => None
            end
          else
            match read_nat (String c r) with
            | Some (n, r') => Some (JInt n, r')
            | None =>
                match strip_prefix "true" (String c r) with
                | Some r' => Some (JBool true, r')
                | None =>
                match strip_prefix "false" (String c r) with
                | Some r' => Some (JBool false, r')
                | None =>
                match strip_prefix "null" (String c r) with
                | Some r' => Some (JNull, r')
                | None => None
                end end end
            end
      | EmptyString => None
      end
  end
with parse_elements (fuel : nat) (s : string) (acc : list json)
    : option (json * string) :=
  match fuel with
  | O => None
  | S fuel' =>
      match parse_value fuel' s with
      | Some (v, r) =>
          match skip_ws r with
          | String c r' =>
              if Ascii.eqb c ","%char then parse_elements fuel' r' (acc ++ [v])
              else if Ascii.eqb c "]"%char then Some (JArray (acc ++ [v]), r')
              else None
          | EmptyString => None
          end
      | None => None
      end
  end
with parse_members (fuel : nat) (s : string) (acc : gmap string json)
    : option (json * string) :=
  match fuel with
  | O => None
  | S fuel' =>
      match s with
      | String q r =>
          if Ascii.eqb q dquote then
            match read_string r with
            | Some (key, r1) =>
                match skip_ws r1 with
                | String c r2 =>
                    if Ascii.eqb c ":"%char then
                      match parse_value fuel' r2 with
                      | Some (v, r3) =>
                          match skip_ws r3 with
                          | String c' r4 =>
                              if Ascii.eqb c' ","%char
                              then parse_members fuel' (skip_ws r4)
                                     (<[key := v]> acc)
                              else if Ascii.eqb c' "}"%char
                              then Some (JObject (<[key := v]> acc), r4)
                              else None
                          | EmptyString => None
                          end
                      | None => None
                      end
                    else None
                | EmptyString => None
                end
            | None => None
            end
          else None
      | EmptyString => None
      end
  end.

(** A whole text: one value, with white space around it. *)
Definition loads (s : string) : option json :=
  match parse_value (S (String.length s)) s with
  | Some (v, r) =>
      match skip_ws r with
      | EmptyString => Some v
      | _ => None
      end
  | None => None
  end.

Definition json_error (data : string) : string := "Expecting value".

Definition b64_value (c : ascii) : option N :=
  let n := N_of_ascii c in
  if ((65 <=? n) && (n <=? 90))%N then Some (n - 65)%N
  else if ((97 <=? n) && (n <=? 122))%N then Some (n - 71)%N
  else if ((48 <=? n) && (n <=? 57))%N then Some (n + 4)%N
  else if Ascii.eqb c "-"%char then Some 62%N
  else if Ascii.eqb c "_"%char then Some 63%N
  else None.

Definition byte (n : N) : ascii := ascii_of_N (n mod 256).

Fixpoint base64url_decode (s : string) : option string :=
  match s with
  | EmptyString => Some EmptyString
  | String a (String b EmptyString) =>
      match b64_value a, b64_value b with
      | Some x, Some y =>
          if (y mod 16 =? 0)%N
          then Some (String (byte (x * 4 + y / 16)) EmptyString)
          else None
      | _, _ => None
      end
  | String a (String b (String c EmptyString)) =>
      match b64_value a, b64_value b, b64_value c with
      | Some x, Some y, Some z =>
          if (z mod 4 =? 0)%N
          then Some (String (byte (x * 4 + y / 16))
                       (String (byte (y * 16 + z / 4)) EmptyString))
          else None
      | _, _, _ => None
      end
  | String a (String b (String c (String d rest))) =>
      match b64_value a, b64_value b, b64_value c, b64_value d with
      | Some x, Some y, Some z, Some t =>
          match base64url_decode rest with
          | Some tl =>
              Some (String (byte (x * 4 + y / 16))
                      (String (byte (y * 16 + z / 4))
                         (String (byte (z * 64 + t)) tl)))
          | None => None
          end
      | _, _, _, _ => None
      end
  | _ => None
  end.

End Demo.

(** ** Scenarios *)
Module Scenario.

Definition random : nat → Q := λ _, (1 # 2)%Q.

(** A cloud that gives its answers in order, whatever is asked, and
    refuses the connection afterwards. *)
Definition scripted (script : list answer) : Cloud :=
  λ n _ _ _, default (Fails (HTTPXError ConnectError)) (script !! n).

(** A device that answers every request with this status and a session
    cookie. *)
Definition device (status : Z) : Client :=
  λ _ _, Responds (mkResponse status "" {[ "sessionId" := "bEWbDyXx" ]}).

Definition jwt : string :=
  "eyJhbGciOiJIUzI1NiIsInR5cCI6IkpXVCJ9.eyJleHAiOjE3MDAwMDAwMDB9.c2ln".

Definition login_ok : Response :=
  mkResponse 200
    (Demo.dq "{'message': 'success', 'session_id': 'f3a9', 'manager_token': 'mt-1', 'is_consumer': true}")
    ∅.

Definition login_html : Response :=
  mkResponse 200 "<html>Service Unavailable</html>" ∅.

Definition login_list : Response := mkResponse 200 "[]" ∅.

Definition login_partial : Response :=
  mkResponse 200 (Demo.dq "{'is_consumer': true, 'session_id': 'f3a9'}") ∅.

Definition token_ok : Response := mkResponse 200 jwt ∅.
Definition token_empty : Response := mkResponse 200 "" ∅.
Definition token_refused : Response := mkResponse 500 "Internal Server Error" ∅.

Definition timeout : answer := Fails (HTTPXError ConnectTimeout).
Definition broken : answer := Fails (HTTPXError ReadError).

(** An instance with cloud credentials, and one with a token. *)
Definition installer : EnvoyTokenAuth :=
  TokenAuth.init "envoy.local" (Some "installer@example.com")
    (Some "correct horse") (Some "122000000001") None.

Definition holder : EnvoyTokenAuth :=
  TokenAuth.init "envoy.local" None None None (Some jwt).

Definition start : World := mkWorld 0 0 [].

(** The cloud hands out a token, the device does not accept it. *)
Definition rejected : result () * EnvoyTokenAuth * World :=
  setup random (scripted [Responds login_ok; Responds token_ok]) Demo.loads 1
    (device 401) installer start.

(** The login succeeds, the token endpoint fails. *)
Definition refused : result () * EnvoyTokenAuth * World :=
  setup random (scripted [Responds login_ok; Responds token_refused])
    Demo.loads 1 (device 200) installer start.

(** The device does not accept the token the instance was built with. *)
Definition stale : result () * EnvoyTokenAuth * World :=
  setup random (scripted []) Demo.loads 0 (device 401) holder start.

(** Each cloud request fails once before it is answered. *)
Definition flaky : Cloud :=
  scripted [timeout; Responds login_ok; broken; Responds token_ok].

End Scenario.

(** More instances, answers and tokens. *)
Module Cases.

Import Scenario.

Definition no_password : EnvoyTokenAuth :=
  TokenAuth.init "envoy.local" (Some "installer@example.com") None
    (Some "122000000001") None.

Definition no_serial : EnvoyTokenAuth :=
  TokenAuth.init "envoy.local" (Some "installer@example.com")
    (Some "correct horse") None None.

Definition login_denied : Response :=
  mkResponse 401 (Demo.dq "{'message': 'Invalid credentials'}") ∅.

Definition login_null_manager : Response :=
  mkResponse 200
    (Demo.dq "{'session_id': 'f3a9', 'manager_token': null, 'is_consumer': false}")
    ∅.

(** A device that cannot be reached. *)
Definition unreachable : Client := λ _ _, Fails (HTTPXError ConnectTimeout).

(** The cloud answers at the second attempt each time, the device accepts
    the token. *)
Definition established : result () * EnvoyTokenAuth * World :=
  setup random flaky Demo.loads 2 (device 200) installer start.

(** The token of [jwt] with another signature, and one without [exp]. *)
Definition jwt_forged : string :=
  "eyJhbGciOiJIUzI1NiIsInR5cCI6IkpXVCJ9.eyJleHAiOjE3MDAwMDAwMDB9.Zm9yZ2Vk".

Definition jwt_no_exp : string :=
  "eyJhbGciOiJIUzI1NiIsInR5cCI6IkpXVCJ9.eyJpc3MiOiJFbnRyZXoifQ.c2ln".

End Cases.


(** ** Vocabulary of the statements *)

(** The events of the cloud round trip. *)
Definition cloud_event (ev : event) : Prop :=
  match ev with
  | EvGet _ _ => False
  | _ => True
  end.

(** Attempts [start], ..., [start + n - 1] at this request all raise an
    exception that the retry predicate accepts. *)
Definition retryable_failures (cloud : Cloud) (start n : nat) (url : string)
    (data : option (gmap string string)) (body : option json) : Prop :=
  ∀ k, k < n →
    ∃ e, cloud (start + k) url body data = Fails e
         ∧ retry_if_exception_type e = true.

(** The request is answered by [r] at its [n+1]-th attempt. *)
Definition answered_after (cloud : Cloud) (start n : nat) (url : string)
    (data : option (gmap string string)) (body : option json)
    (r : Response) : Prop :=
  retryable_failures cloud start n url data body
  ∧ cloud (start + n) url body data = Responds r.

(** What [n] failed attempts followed by a last one leave in the trace:
    a POST and a sleep per failed attempt, then the last POST. *)
Fixpoint attempts_trace (random : nat → Q) (url : string)
    (data : option (gmap string string)) (body : option json)
    (n attempt_number drawn : nat) : list event :=
  match n with
  | O => [EvPost url body data]
  | S n' =>
      EvPost url body data
      :: EvSleep (wait_random_exponential 2 3 attempt_number (random drawn))
      :: attempts_trace random url data body n' (S attempt_number) (S drawn)
  end.

Definition after_attempts (random : nat → Q) (url : string)
    (data : option (gmap string string)) (body : option json)
    (n : nat) (w : World) : World :=
  {| posts := posts w + S n;
     draws := draws w + n;
     trace := trace w ++ attempts_trace random url data body n 1 (draws w) |}.

(** The unit roundoff of binary64, [2 ** -53]: the product of two floats
    is within this relative error of the exact product. *)
Definition unit_roundoff : Q := 1 # 9007199254740992.

(** [x] is [y] up to the rounding of one float operation. *)
Definition rounded (x y : Q) : Prop :=
  (y * (1 - unit_roundoff) <= x)%Q ∧ (x <= y * (1 + unit_roundoff))%Q.

(** Every sleep of the trace lasts between [0] and [bound] seconds. *)
Definition sleeps_within (bound : Q) (evs : list event) : Prop :=
  Forall (λ ev, match ev with
                | EvSleep s => (0 <= s)%Q ∧ (s <= bound)%Q
                | _ => True
                end) evs.

Definition set_credentials (username password serial : option string)
    (self : EnvoyTokenAuth) : EnvoyTokenAuth :=
  {| host := host self;
     cloud_username := username;
     cloud_password := password;
     envoy_serial := serial;
     _token := _token self;
     _cookies := _cookies self;
     _is_consumer := _is_consumer self;
     _manager_token := _manager_token self |}.

Definition no_dot (s : string) : Prop := "."%char ∉ String.list_ascii_of_string s.

(** The instances on which [setup] has never returned: a new instance, and
    what calls of [setup] that raised (or have not returned) and calls of
    [refresh] make of such an instance, in any environment. *)
Inductive never_set_up : EnvoyTokenAuth → Prop :=
| never_init host username password serial token :
    never_set_up (TokenAuth.init host username password serial token)
| never_setup random cloud loads fuel client self w r self' w' :
    never_set_up self →
    setup random cloud loads fuel client self w = (r, self', w') →
    r ≠ Return () →
    never_set_up self'
| never_refresh random cloud loads fuel self w r self' w' :
    never_set_up self →
    refresh random cloud loads fuel self w = (r, self', w') →
    never_set_up self'.

(** The constructor arguments other than the token, and the cookies. *)
Definition frame (self self' : EnvoyTokenAuth) : Prop :=
  host self' = host self
  ∧ cloud_username self' = cloud_username self
  ∧ cloud_password self' = cloud_password self
  ∧ envoy_serial self' = envoy_serial self
  ∧ _cookies self' = _cookies self.

(** A step of the cloud round trip: it keeps the frame and the token, and
    adds POSTs and sleeps to the trace. *)
Definition cloud_step (s s' : EnvoyTokenAuth * World) : Prop :=
  frame s.1 s'.1
  ∧ _token s'.1 = _token s.1
  ∧ posts s.2 ≤ posts s'.2
  ∧ ∃ evs, trace s'.2 = trace s.2 ++ evs ∧ Forall cloud_event evs.

(** [m] relates the state it starts in to the state it ends in by [R],
    however it ends. *)
Definition preserves (R : relation (EnvoyTokenAuth * World)) {A : Type}
    (m : M A) : Prop :=
  ∀ self w r self' w', m self w = (r, self', w') → R (self, w) (self', w').

(** The URL and the headers of the verification request. *)
Definition check_jwt_url (self : EnvoyTokenAuth) : string :=
  "https://" +:+ host self +:+ "/auth/check_jwt".

Definition bearer (self : EnvoyTokenAuth) : gmap string string :=
  {[ "Authorization" := "Bearer " +:+ str_of (_token self) ]}.

(** What [setup] does once [self] holds a token: the GET, the status check,
    the cookies. *)
Definition verification (client : Client) (self : EnvoyTokenAuth) (w : World)
    : result () * EnvoyTokenAuth * World :=
  let w' := {| posts := posts w; draws := draws w;
               trace := trace w ++ [EvGet (check_jwt_url self) (bearer self)] |}
  in
  match client (check_jwt_url self) (bearer self) with
  | Responds req =>
      if bool_decide (status_code req ≠ 200%Z)
      then (Raise (EnvoyAuthenticationError not_verified_msg), self, w')
      else (Return (), set_cookies (resp_cookies req) self, w')
  | Fails e => (Raise e, self, w')
  end.

(** The form of the login request and the JSON body of the token request. *)
Definition login_form (self : EnvoyTokenAuth)
    : option (gmap string string) :=
  Some {[ "user[email]" := str_of (cloud_username self);
          "user[password]" := str_of (cloud_password self) ]}.

Definition token_request (self : EnvoyTokenAuth) (session_id : json)
    : option json :=
  Some (JObject {[ "session_id" := session_id;
                   "serial_num" := JString (str_of (envoy_serial self));
                   "username" := JString (str_of (cloud_username self)) ]}).

(** All that [_obtain_token] needs of the constructor arguments. *)
Definition has_credentials (self : EnvoyTokenAuth) : Prop :=
  falsy (cloud_username self) = false
  ∧ falsy (cloud_password self) = false
  ∧ falsy (envoy_serial self) = false.

(** ** Vocabulary of the further properties *)

(** What an object with this host and these credentials may send: the
    login form to the login URL, a token request to the token URL, and the
    bearer header to its own [/auth/check_jwt]. *)
Definition allowed_event (self : EnvoyTokenAuth) (ev : event) : Prop :=
  match ev with
  | EvPost url body data =>
      (url = TokenAuth.JSON_LOGIN_URL ∧ body = None ∧ data = login_form self)
      ∨ (url = TokenAuth.TOKEN_URL ∧ data = None
         ∧ ∃ session_id, body = token_request self session_id)
  | EvSleep _ => True
  | EvGet url hdrs =>
      url = TokenAuth.get_endpoint_url self "/auth/check_jwt"
      ∧ ∃ t, t ≠ "" ∧ hdrs = {[ "Authorization" := "Bearer " +:+ t ]}
  end.

(** A step that, started on an object with the frame of [self0], keeps
    that frame and sends only what [self0] may send. *)
Definition traffic_of (self0 : EnvoyTokenAuth)
    (s s' : EnvoyTokenAuth * World) : Prop :=
  frame self0 s.1 →
  frame self0 s'.1
  ∧ ∃ evs, trace s'.2 = trace s.2 ++ evs ∧ Forall (allowed_event self0) evs.

(** The base64url alphabet of RFC 4648, section 5. *)
Definition alphabet : list ascii :=
  String.list_ascii_of_string
    "ABCDEFGHIJKLMNOPQRSTUVWXYZabcdefghijklmnopqrstuvwxyz0123456789-_".

Definition b64_char (n : N) : ascii :=
  default "A"%char (alphabet !! N.to_nat (n mod 64)).

(** The base64url encoding of a byte string without padding, as a JWT
    carries it: three bytes give four characters, a rest of one or two
    bytes gives two or three characters whose unused bits are zero. *)
Fixpoint base64url_encode (b : string) : string :=
  match b with
  | EmptyString => EmptyString
  | String x EmptyString =>
      let x := N_of_ascii x in
      String (b64_char (x / 4)) (String (b64_char (x mod 4 * 16)) EmptyString)
  | String x (String y EmptyString) =>
      let x := N_of_ascii x in
      let y := N_of_ascii y in
      String (b64_char (x / 4))
        (String (b64_char (x mod 4 * 16 + y / 16))
           (String (b64_char (y mod 16 * 4)) EmptyString))
  | String x (String y (String z rest)) =>
      let x := N_of_ascii x in
      let y := N_of_ascii y in
      let z := N_of_ascii z in
      String (b64_char (x / 4))
        (String (b64_char (x mod 4 * 16 + y / 16))
           (String (b64_char (y mod 16 * 4 + z / 64))
              (String (b64_char (z mod 64)) (base64url_encode rest))))
  end.

(** The compact serialization [header.payload.signature] of three byte
    strings. *)
Definition compact (header_data payload_data signature : string) : string :=
  base64url_encode header_data +:+ "." +:+ base64url_encode payload_data
  +:+ "." +:+ base64url_encode signature.

(** A JOSE header without critical extensions and without detached
    payload, whose key id, if any, is a string. *)
Definition plain_header (header : gmap string json) : Prop :=
  (header !! "kid" = None ∨ ∃ kid, header !! "kid" = Some (JString kid))
  ∧ header !! "crit" = None
  ∧ header !! "b64" ≠ Some (JBool false).

(** The number of dots of a token. *)
Fixpoint dots (s : string) : nat :=
  match s with
  | EmptyString => 0
  | String c s' => (if Ascii.eqb c "."%char then 1 else 0) + dots s'
  end.

(** [m] raises no exception outside [P]. *)
Definition raises_only (P : exn → Prop) {A : Type} (m : M A) : Prop :=
  ∀ self w e self' w', m self w = (Raise e, self', w') → P e.

(** The exceptions of the cloud round trip: the five authentication
    errors, what a subscript on the login response raises, and what the
    cloud client raises outside the retried classes. *)
Definition obtain_error (cloud : Cloud) (e : exn) : Prop :=
  e = EnvoyAuthenticationError no_credentials_msg
  ∨ e = EnvoyAuthenticationError no_serial_msg
  ∨ (∃ r, status_code r ≠ 200%Z
          ∧ (e = EnvoyAuthenticationError (login_failed_msg r)
             ∨ e = EnvoyAuthenticationError (token_failed_msg r)))
  ∨ (∃ r, status_code r = 200%Z
          ∧ e = EnvoyAuthenticationError (decode_failed_msg r))
  ∨ e = TypeError
  ∨ (∃ key, e = KeyError key
            ∧ key ∈ ["is_consumer"; "manager_token"; "session_id"])
  ∨ (retry_if_exception_type e = false
     ∧ ∃ n url body data, cloud n url body data = Fails e).

(** The exceptions of [setup]: those, its own two authentication errors,
    and what the local client raises. *)
Definition setup_error (cloud : Cloud) (client : Client) (e : exn) : Prop :=
  obtain_error cloud e
  ∨ e = EnvoyAuthenticationError no_token_msg
  ∨ e = EnvoyAuthenticationError not_verified_msg
  ∨ ∃ url hdrs, client url hdrs = Fails e.

(** * Properties *)

(** ** The retry loop *)

Section Proofs.

Variable random : nat → Q.
Variable cloud : Cloud.
Variable orjson_loads : string → option json.

#[local] Abbreviation post := (_post_json_with_cloud_client random cloud).
#[local] Abbreviation obtain := (_obtain_token random cloud orjson_loads).

Lemma bind_unfold {A B : Type} (m : M A) (f : A → M B) self w :
  (m ≫= f) self w =
  match m self w with
  | (Return v, self', w') => f v self' w'
  | (Raise e, self', w') => (Raise e, self', w')
  | (OutOfFuel, self', w') => (OutOfFuel, self', w')
  end.
Proof. reflexivity. Qed.

(** The loop leaves [self] alone and adds only POSTs and sleeps. *)
Lemma retry_post_frame fuel url data body : ∀ attempt self w r self' w',
  retry random cloud_retry_policy fuel attempt
    (cloud_client_post cloud url data body) self w = (r, self', w') →
  self' = self
  ∧ posts w ≤ posts w'
  ∧ ∃ evs, trace w' = trace w ++ evs ∧ Forall cloud_event evs.
Proof.
  induction fuel as [|fuel IH]; intros attempt self w r self' w' H; simpl in H.
  - injection H as <- <- <-. split_and!; [done|done|].
    exists []. by rewrite app_nil_r.
  - unfold cloud_client_post in H at 1.
    destruct (cloud (posts w) url body data) as [resp|e].
    + injection H as <- <- <-. simpl. split_and!; [done|lia|].
      exists [EvPost url body data]. split; [done|]. by repeat constructor.
    + destruct (retry_if_exception_type e).
      * apply IH in H as (-> & Hp & evs & Ht & Hev). simpl in *.
        split_and!; [done|lia|].
        exists (EvPost url body data :: EvSleep
          (wait_random_exponential 2 3 attempt (random (draws w))) :: evs).
        split; [rewrite Ht, <- !app_assoc; done|].
        by repeat constructor.
      * injection H as <- <- <-. simpl. split_and!; [done|lia|].
        exists [EvPost url body data]. split; [done|]. by repeat constructor.
Qed.

Lemma post_frame fuel url data body self w r self' w' :
  post fuel url data body self w = (r, self', w') →
  self' = self
  ∧ posts w ≤ posts w'
  ∧ ∃ evs, trace w' = trace w ++ evs ∧ Forall cloud_event evs.
Proof. apply retry_post_frame. Qed.

Lemma world_eq p p' d d' (t t' : list event) :
  p = p' → d = d' → t = t' → mkWorld p d t = mkWorld p' d' t'.
Proof. by intros -> -> ->. Qed.

Lemma retryable_failures_tail start n url data body :
  retryable_failures cloud start (S n) url data body →
  retryable_failures cloud (S start) n url data body.
Proof.
  intros H k Hk. destruct (H (S k)) as (e & He & Hr); [lia|].
  exists e. split; [|done].
  by replace (S start + k) with (start + S k) by lia.
Qed.

(** [n] failed attempts, then an answer: the answer is returned, whatever
    its status. *)
Lemma retry_post_answered url data body r : ∀ n fuel attempt self w,
  n < fuel →
  answered_after cloud (posts w) n url data body r →
  retry random cloud_retry_policy fuel attempt
    (cloud_client_post cloud url data body) self w
  = (Return r, self,
     {| posts := posts w + S n;
        draws := draws w + n;
        trace := trace w
                 ++ attempts_trace random url data body n attempt (draws w) |}).
Proof.
  induction n as [|n IH]; intros fuel attempt self w Hfuel [Hfail Hans];
    (destruct fuel as [|fuel]; [lia|]); simpl.
  - unfold cloud_client_post at 1. rewrite Nat.add_0_r in Hans.
    rewrite Hans. f_equal. apply world_eq; [lia|lia|done].
  - unfold cloud_client_post at 1.
    destruct (Hfail 0) as (e & He & Hr); [lia|].
    rewrite Nat.add_0_r in He. rewrite He. simpl. rewrite Hr.
    rewrite IH; simpl; [| lia |].
    + f_equal. apply world_eq; [lia|lia|]. by rewrite <- !app_assoc.
    + split; [by apply retryable_failures_tail|].
      by replace (S (posts w) + n) with (posts w + S n) by lia.
Qed.

Lemma post_answered url data body r n fuel self w :
  n < fuel →
  answered_after cloud (posts w) n url data body r →
  post fuel url data body self w
  = (Return r, self, after_attempts random url data body n w).
Proof. apply retry_post_answered. Qed.

(** As long as the attempts fail with exceptions of the retried classes,
    the loop goes on: no amount of fuel makes it return or raise. *)
Lemma retry_post_forever url data body : ∀ fuel attempt self w,
  (∀ k, ∃ e, cloud (posts w + k) url body data = Fails e
             ∧ retry_if_exception_type e = true) →
  (retry random cloud_retry_policy fuel attempt
     (cloud_client_post cloud url data body) self w).1.1 = OutOfFuel.
Proof.
  induction fuel as [|fuel IH]; intros attempt self w H; simpl; [done|].
  unfold cloud_client_post at 1.
  destruct (H 0) as (e & He & Hr). rewrite Nat.add_0_r in He.
  rewrite He. simpl. rewrite Hr. apply IH. simpl. intros k.
  destruct (H (S k)) as (e' & He' & Hr'). exists e'.
  by replace (S (posts w + k)) with (posts w + S k) by lia.
Qed.

(** An exception of another class is raised again at once. *)
Lemma post_not_retried url data body e fuel self w :
  cloud (posts w) url body data = Fails e →
  retry_if_exception_type e = false →
  post (S fuel) url data body self w
  = (Raise e, self, after_attempts random url data body 0 w).
Proof.
  intros He Hr. unfold _post_json_with_cloud_client. simpl.
  unfold cloud_client_post at 1. rewrite He. simpl. rewrite Hr.
  unfold after_attempts. simpl. f_equal. apply world_eq; [lia|lia|done].
Qed.

(** ** What the cloud round trip and [setup] leave untouched *)

Section Preserves.

Context (R : relation (EnvoyTokenAuth * World)) `{!PreOrder R}.

Lemma preserves_bind {A B : Type} (m : M A) (f : A → M B) :
  preserves R m → (∀ v, preserves R (f v)) → preserves R (m ≫= f).
Proof.
  intros Hm Hf self w r self' w'. rewrite bind_unfold.
  destruct (m self w) as [[[v|e|] self1] w1] eqn:E; intros H.
  - etrans; [by eapply Hm|by eapply Hf].
  - injection H as <- <- <-. by eapply Hm.
  - injection H as <- <- <-. by eapply Hm.
Qed.

Lemma preserves_pure {A : Type} (r : result A) : preserves R (lift r).
Proof. intros self w r' self' w' [= <- <- <-]. done. Qed.

Lemma preserves_raise {A : Type} (e : exn) : preserves R (@raise A e).
Proof. apply (preserves_pure (Raise e)). Qed.

Lemma preserves_ret {A : Type} (v : A) : preserves R (mret v).
Proof. apply (preserves_pure (Return v)). Qed.

Lemma preserves_this : preserves R this.
Proof. intros self w r' self' w' [= <- <- <-]. done. Qed.

End Preserves.

(** Walks through a method body, leaving the calls it does not know. *)
Ltac preserved :=
  lazymatch goal with
  | |- preserves _ (_ ≫= _) =>
      apply preserves_bind; [exact _ | preserved | intros ?; cbv beta; preserved]
  | |- preserves _ this => apply preserves_this; exact _
  | |- preserves _ (raise _) => apply preserves_raise; exact _
  | |- preserves _ (lift _) => apply preserves_pure; exact _
  | |- preserves _ (mret _) => apply preserves_ret; exact _
  | |- preserves _ (if ?b then _ else _) => destruct b; preserved
  | |- preserves _ (match ?x with _ => _ end) => destruct x; preserved
  | |- _ => idtac
  end.

#[local] Instance cloud_step_preorder : PreOrder cloud_step.
Proof.
  split.
  - intros [self w]. unfold cloud_step, frame. simpl. split_and!; try done.
    exists []. by rewrite app_nil_r.
  - intros [s1 w1] [s2 w2] [s3 w3]. unfold cloud_step, frame. simpl.
    intros ((?&?&?&?&?)&?&?&evs&Ht&Hev) ((?&?&?&?&?)&?&?&evs'&Ht'&Hev').
    split_and!; try congruence; try lia.
    exists (evs ++ evs'). split; [by rewrite Ht', Ht, app_assoc|].
    by apply Forall_app.
Qed.

Lemma post_cloud_step fuel url data body :
  preserves cloud_step (post fuel url data body).
Proof.
  intros self w r self' w' H. apply post_frame in H as (-> & Hp & Hev).
  unfold cloud_step, frame. simpl. by split_and!.
Qed.

Lemma assign_cloud_step f :
  (∀ self, frame self (f self) ∧ _token (f self) = _token self) →
  preserves cloud_step (assign f).
Proof.
  intros Hf self w r self' w' [= <- <- <-].
  destruct (Hf self) as [? ?]. unfold cloud_step. simpl. split_and!; try done.
  exists []. by rewrite app_nil_r.
Qed.

Lemma obtain_cloud_step fuel : preserves cloud_step (obtain fuel).
Proof.
  unfold _obtain_token. preserved;
    first [apply post_cloud_step | by apply assign_cloud_step].
Qed.

Lemma obtain_frame fuel self w r self' w' :
  obtain fuel self w = (r, self', w') →
  frame self self'
  ∧ _token self' = _token self
  ∧ posts w ≤ posts w'
  ∧ ∃ evs, trace w' = trace w ++ evs ∧ Forall cloud_event evs.
Proof. apply obtain_cloud_step. Qed.

(** ** [setup], step by step *)

Lemma falsy_false_Some x : falsy x = false → ∃ t, x = Some t ∧ t ≠ "".
Proof.
  destruct x as [t|]; [|done]. simpl. intros H%bool_decide_eq_false. eauto.
Qed.

Lemma setup_verifies fuel client self w :
  falsy (_token self) = false →
  setup random cloud orjson_loads fuel client self w
  = verification client self w.
Proof.
  intros Hf. destruct (falsy_false_Some _ Hf) as (t & Ht & _).
  unfold setup, verification, check_jwt_url, bearer.
  rewrite bind_unfold. simpl. rewrite Hf. rewrite !bind_unfold. simpl.
  rewrite bind_unfold. simpl. rewrite Hf. rewrite bind_unfold.
  unfold lift, TokenAuth.token. rewrite Ht. simpl. rewrite bind_unfold.
  unfold client_get.
  destruct (client _ _) as [req|e]; [|done].
  by destruct (bool_decide (status_code req ≠ 200%Z)).
Qed.

Lemma setup_obtains fuel client self w :
  falsy (_token self) = true →
  setup random cloud orjson_loads fuel client self w
  = match obtain fuel self w with
    | (Return t, self1, w1) =>
        if falsy (Some t)
        then (Raise (EnvoyAuthenticationError no_token_msg),
              set_token (Some t) self1, w1)
        else verification client (set_token (Some t) self1) w1
    | (Raise e, self1, w1) => (Raise e, self1, w1)
    | (OutOfFuel, self1, w1) => (OutOfFuel, self1, w1)
    end.
Proof.
  intros Hf. unfold setup. rewrite bind_unfold. simpl. rewrite Hf.
  rewrite !bind_unfold.
  destruct (obtain fuel self w) as [[[t|e|] self1] w1]; [|done|done].
  simpl. rewrite bind_unfold. simpl.
  destruct (bool_decide (t = "")) eqn:Ht; [done|].
  pose proof (setup_verifies fuel client (set_token (Some t) self1) w1) as E.
  unfold setup in E. rewrite bind_unfold in E. simpl in E. rewrite Ht in E.
  rewrite !bind_unfold in E. simpl in E. rewrite bind_unfold in E.
  simpl in E. rewrite Ht in E. by apply E.
Qed.

Lemma frame_refl self : frame self self.
Proof. by unfold frame. Qed.

Lemma frame_trans a b c : frame a b → frame b c → frame a c.
Proof. unfold frame. intros (?&?&?&?&?) (?&?&?&?&?). split_and!; congruence. Qed.

Lemma frame_set_token t self : frame self (set_token t self).
Proof. by unfold frame. Qed.

(** A run of [verification] that does not return leaves [self] as it was;
    in any case the world gains the GET and nothing else. *)
Lemma verification_inv client self w r self' w' :
  verification client self w = (r, self', w') →
  w' = {| posts := posts w; draws := draws w;
          trace := trace w ++ [EvGet (check_jwt_url self) (bearer self)] |}
  ∧ (r ≠ Return () → self' = self)
  ∧ (∀ req, client (check_jwt_url self) (bearer self) = Responds req →
       status_code req ≠ 200%Z →
       r = Raise (EnvoyAuthenticationError not_verified_msg)).
Proof.
  unfold verification.
  destruct (client _ _) as [req|e'].
  - destruct (bool_decide (status_code req ≠ 200%Z)) eqn:Hs;
      intros [= <- <- <-]; split_and!; try done.
    intros req' [= <-] Hne. by apply bool_decide_eq_false in Hs.
  - intros [= <- <- <-]. by split_and!.
Qed.

(** ** The claims about [setup] *)

(** C3. With a token supplied to the constructor (a string that is not
    empty: [setup] takes [None] and the empty string for no token), [setup]
    makes no cloud round trip and goes straight to the verification
    request: whatever the cloud service, the random source, the JSON parser
    and the fuel are, it issues no POST, draws no random number, and its
    whole effect is the single GET of [/auth/check_jwt] with the bearer
    header; and it does not read [cloud_username], [cloud_password] or
    [envoy_serial]: with other values in these attributes it behaves the
    same. *)
Theorem setup_with_token_skips_cloud fuel client self w :
  falsy (_token self) = false →
  setup random cloud orjson_loads fuel client self w
    = verification client self w
  ∧ (let w' := (setup random cloud orjson_loads fuel client self w).2 in
     posts w' = posts w
     ∧ draws w' = draws w
     ∧ trace w' = trace w ++ [EvGet (check_jwt_url self) (bearer self)])
  ∧ (∀ username password serial,
       let '(r, self', w') :=
         setup random cloud orjson_loads fuel client self w in
       setup random cloud orjson_loads fuel client
         (set_credentials username password serial self) w
       = (r, set_credentials username password serial self', w')).
Proof.
  intros Hf. split_and!.
  - by apply setup_verifies.
  - rewrite setup_verifies by done.
    destruct (verification client self w) as [[r self'] w'] eqn:E.
    apply verification_inv in E as (-> & _). by simpl.
  - intros username password serial.
    rewrite !setup_verifies by done. unfold verification. simpl.
    change (check_jwt_url (set_credentials username password serial self))
      with (check_jwt_url self).
    change (bearer (set_credentials username password serial self))
      with (bearer self).
    destruct (client _ _) as [req|e]; [|done].
    by destruct (bool_decide (status_code req ≠ 200%Z)).
Qed.

(** C4. When the GET of [/auth/check_jwt] that [setup] issues is answered
    with a status other than 200, [setup] raises
    [EnvoyAuthenticationError] with the message "Unable to verify token for
    Envoy authentication." and leaves the [_cookies] attribute as it was. *)
Theorem setup_rejects_unverified_token fuel client self w r self' w'
    evs url hdrs req :
  setup random cloud orjson_loads fuel client self w = (r, self', w') →
  trace w' = trace w ++ evs →
  EvGet url hdrs ∈ evs →
  client url hdrs = Responds req →
  status_code req ≠ 200%Z →
  r = Raise (EnvoyAuthenticationError not_verified_msg)
  ∧ _cookies self' = _cookies self.
Proof.
  intros Hsetup Htrace Hin Hreq Hstatus.
  destruct (falsy (_token self)) eqn:Hf.
  - rewrite setup_obtains in Hsetup by done.
    destruct (obtain fuel self w) as [[r1 self1] w1] eqn:Hobtain.
    apply obtain_frame in Hobtain as (Hframe & _ & _ & evs1 & Ht1 & Hev1).
    assert (EvGet url hdrs ∉ evs1) as Hnot.
    { intros Hin1. by eapply (Forall_forall cloud_event) in Hin1. }
    destruct r1 as [t|e|].
    + destruct (falsy (Some t)).
      * injection Hsetup as <- <- <-. rewrite Ht1 in Htrace.
        apply app_inv_head in Htrace as <-. done.
      * apply verification_inv in Hsetup as (-> & Hself & Hres).
        simpl in Htrace. rewrite Ht1, <- app_assoc in Htrace.
        apply app_inv_head in Htrace as <-.
        apply elem_of_app in Hin as [?|Hin]; [done|].
        apply list_elem_of_singleton in Hin as [= -> ->].
        specialize (Hres _ Hreq Hstatus) as ->.
        rewrite Hself by done. split; [done|]. apply Hframe.
    + injection Hsetup as <- <- <-. rewrite Ht1 in Htrace.
      apply app_inv_head in Htrace as <-. done.
    + injection Hsetup as <- <- <-. rewrite Ht1 in Htrace.
      apply app_inv_head in Htrace as <-. done.
  - rewrite setup_verifies in Hsetup by done.
    apply verification_inv in Hsetup as (-> & Hself & Hres).
    simpl in Htrace. apply app_inv_head in Htrace as <-.
    apply list_elem_of_singleton in Hin as [= -> ->].
    specialize (Hres _ Hreq Hstatus) as ->. by rewrite Hself.
Qed.

(** C1, as amended. When [setup] raises, the host, the cloud credentials,
    the serial number and the [_cookies] attribute are as before the call;
    when the token had been supplied, the whole object is as before. *)
Theorem failed_setup_state fuel client self w e self' w' :
  setup random cloud orjson_loads fuel client self w = (Raise e, self', w') →
  frame self self' ∧ (falsy (_token self) = false → self' = self).
Proof.
  intros Hsetup. destruct (falsy (_token self)) eqn:Hf.
  - split; [|done]. rewrite setup_obtains in Hsetup by done.
    destruct (obtain fuel self w) as [[r1 self1] w1] eqn:Hobtain.
    apply obtain_frame in Hobtain as (Hframe & _).
    destruct r1 as [t| |]; [|by injection Hsetup as <- <- <-|done].
    destruct (falsy (Some t)).
    + injection Hsetup as <- <- <-.
      eapply frame_trans; [done|apply frame_set_token].
    + apply verification_inv in Hsetup as (_ & -> & _); [|done].
      eapply frame_trans; [done|apply frame_set_token].
  - rewrite setup_verifies in Hsetup by done.
    apply verification_inv in Hsetup as (_ & -> & _); [|done].
    split; [apply frame_refl|done].
Qed.

End Proofs.

(** ** The properties of the object *)

(** C2, as amended. [headers] is [{"Authorization": "Bearer " + token}]
    whenever [_token] holds a string, the empty string included, and fails
    with [AssertionError] exactly when [_token] is [None]. *)
Theorem headers_bearer_or_assertion self :
  TokenAuth.headers self
  = match _token self with
    | Some t => Return {[ "Authorization" := "Bearer " +:+ t ]}
    | None => Raise AssertionError
    end.
Proof. unfold TokenAuth.headers, TokenAuth.token. by destruct (_token self). Qed.

(** A [setup] that does not return leaves the cookies as they were. *)
Lemma unfinished_setup_cookies random cloud loads fuel client self w r
    self' w' :
  setup random cloud loads fuel client self w = (r, self', w') →
  r ≠ Return () →
  _cookies self' = _cookies self.
Proof.
  intros Hs Hr. destruct (falsy (_token self)) eqn:Hf.
  - rewrite setup_obtains in Hs by done.
    destruct (_obtain_token random cloud loads fuel self w)
      as [[r1 self1] w1] eqn:Ho.
    apply obtain_frame in Ho as ((_&_&_&_&Hc) & _).
    destruct r1 as [t| |]; [|by injection Hs as <- <- <-..].
    destruct (falsy (Some t)); [by injection Hs as <- <- <-|].
    by apply verification_inv in Hs as (_ & -> & _).
  - rewrite setup_verifies in Hs by done.
    by apply verification_inv in Hs as (_ & -> & _).
Qed.

Lemma refresh_cookies random cloud loads fuel self w r self' w' :
  refresh random cloud loads fuel self w = (r, self', w') →
  _cookies self' = _cookies self.
Proof.
  unfold refresh. rewrite bind_unfold.
  destruct (_obtain_token random cloud loads fuel self w)
    as [[r1 self1] w1] eqn:Ho.
  apply obtain_frame in Ho as ((_&_&_&_&Hc) & _).
  by destruct r1 as [t| |]; intros [= <- <- <-].
Qed.

(** Only a [setup] that returns assigns the cookies. *)
Lemma never_set_up_cookies self : never_set_up self → _cookies self = Unset.
Proof.
  induction 1 as [| random cloud loads fuel client self w r self' w' _ IH Hs Hr
                  | random cloud loads fuel self w r self' w' _ IH Hs].
  - done.
  - by rewrite (unfinished_setup_cookies _ _ _ _ _ _ _ _ _ _ Hs Hr).
  - by rewrite (refresh_cookies _ _ _ _ _ _ _ _ _ Hs).
Qed.

(** C9, as amended. On an instance on which [setup] has never returned,
    reading [cookies] raises [AttributeError]; on a new instance reading
    [manager_token] and [is_consumer] raises [AttributeError] as well. *)
Theorem unverified_reads_raise_attribute_error self :
  never_set_up self →
  TokenAuth.cookies self = Raise (AttributeError "_cookies")
  ∧ ∀ host username password serial token,
      let new := TokenAuth.init host username password serial token in
      TokenAuth.cookies new = Raise (AttributeError "_cookies")
      ∧ TokenAuth.manager_token new = Raise (AttributeError "_manager_token")
      ∧ TokenAuth.is_consumer new = Raise (AttributeError "_is_consumer").
Proof.
  intros H. split; [|done].
  unfold TokenAuth.cookies. by rewrite (never_set_up_cookies self H).
Qed.

(** ** The expiry of the token *)

Lemma no_dot_cons c s :
  no_dot (String c s) ↔ c ≠ "."%char ∧ no_dot s.
Proof.
  unfold no_dot. simpl. rewrite not_elem_of_cons. split; intros [? ?]; eauto.
Qed.

Lemma append_cons x (a b : string) : String x a +:+ b = String x (a +:+ b).
Proof. reflexivity. Qed.

Lemma append_assoc (a b c : string) : (a +:+ b) +:+ c = a +:+ (b +:+ c).
Proof.
  induction a as [|x a IH]; [done|]. by rewrite !append_cons, IH.
Qed.

Lemma split_once_dot h rest :
  no_dot h → split_once (h +:+ String "." rest) = Some (h, rest).
Proof.
  induction h as [|c h IH]; [done|]. rewrite append_cons. simpl.
  intros [Hc Hh]%no_dot_cons. apply Ascii.eqb_neq in Hc as ->.
  by rewrite IH.
Qed.

Lemma rsplit_once_no_dot s : no_dot s → rsplit_once s = None.
Proof.
  induction s as [|c s IH]; simpl; [done|].
  intros [Hc Hs]%no_dot_cons. rewrite IH by done.
  by apply Ascii.eqb_neq in Hc as ->.
Qed.

Lemma rsplit_once_dot pre s :
  no_dot s → rsplit_once (pre +:+ String "." s) = Some (pre, s).
Proof.
  intros Hs. induction pre as [|c pre IH].
  - simpl. by rewrite rsplit_once_no_dot.
  - rewrite append_cons. simpl. by rewrite IH.
Qed.

(** *** base64url *)

Lemma b64_char_no_dot n : b64_char n ≠ "."%char.
Proof.
  unfold b64_char.
  assert (forallb
            (λ k, negb (Ascii.eqb (default "A"%char (alphabet !! k)) "."))
            (seq 0 64) = true) as H by (vm_compute; reflexivity).
  rewrite forallb_forall in H.
  assert (In (N.to_nat (n mod 64)) (seq 0 64)) as Hin.
  { apply in_seq. split; [apply Nat.le_0_l|]. change (0 + 64) with (N.to_nat 64).
    pose proof (N.mod_upper_bound n 64) as Hlt.
    apply N.compare_lt_iff in Hlt; [|done].
    apply Nat.compare_lt_iff. by rewrite <- N2Nat.inj_compare. }
  specialize (H _ Hin). intros Heq. by rewrite Heq in H.
Qed.

Lemma no_dot_encode_le n :
  ∀ b, String.length b ≤ n → no_dot (base64url_encode b).
Proof.
  induction n as [n IH] using lt_wf_ind.
  intros [|x [|y [|z rest]]] Hlen; cbn [base64url_encode];
    rewrite ?no_dot_cons; repeat split;
    try apply b64_char_no_dot; try by (unfold no_dot; set_solver).
  all: apply (IH (String.length rest)); [simpl in Hlen; lia|done].
Qed.

Lemma no_dot_encode b : no_dot (base64url_encode b).
Proof. by apply (no_dot_encode_le (String.length b)). Qed.

Lemma b64_value_char n :
  (n < 64)%N → Demo.b64_value (b64_char n) = Some n.
Proof.
  intros Hn.
  assert (forallb
            (λ k, bool_decide
                    (Demo.b64_value (b64_char (N.of_nat k))
                     = Some (N.of_nat k)))
            (seq 0 64) = true) as H by (vm_compute; reflexivity).
  rewrite forallb_forall in H.
  specialize (H (N.to_nat n)). rewrite N2Nat.id in H.
  eapply bool_decide_eq_true, H. apply in_seq.
  split; [apply Nat.le_0_l|]. change (0 + 64) with (N.to_nat 64).
  apply N.compare_lt_iff in Hn.
  apply Nat.compare_lt_iff. by rewrite <- N2Nat.inj_compare.
Qed.

Lemma byte_of_ascii a : Demo.byte (N_of_ascii a) = a.
Proof.
  unfold Demo.byte. pose proof (N_ascii_bounded a).
  rewrite N.mod_small by done. apply ascii_N_embedding.
Qed.

(** Arithmetic on the bits of bytes, through [Z]. *)
#[local] Ltac bits :=
  repeat match goal with
  | H : (N_of_ascii ?a < 256)%N |- _ =>
      apply N2Z.inj_lt in H;
      pose proof (N2Z.is_nonneg (N_of_ascii a))
  end;
  first [apply N2Z.inj | apply N2Z.inj_lt];
  repeat first [rewrite N2Z.inj_add | rewrite N2Z.inj_mul
               | rewrite N2Z.inj_div | rewrite N2Z.inj_mod];
  cbn [Z.of_N] in *;
  Z.div_mod_to_equations; lia.

Lemma demo_decode_encode_le n : ∀ b,
  String.length b ≤ n →
  Demo.base64url_decode (base64url_encode b) = Some b.
Proof.
  induction n as [n IH] using lt_wf_ind.
  intros [|x [|y [|z rest]]] Hlen; [done| | |].
  - pose proof (N_ascii_bounded x).
    cbn [base64url_encode Demo.base64url_decode].
    rewrite !b64_value_char by bits.
    replace (N_of_ascii x mod 4 * 16 mod 16 =? 0)%N with true
      by (symmetry; apply N.eqb_eq; bits).
    replace (N_of_ascii x / 4 * 4 + N_of_ascii x mod 4 * 16 / 16)%N
      with (N_of_ascii x) by bits.
    by rewrite byte_of_ascii.
  - pose proof (N_ascii_bounded x). pose proof (N_ascii_bounded y).
    cbn [base64url_encode Demo.base64url_decode].
    rewrite !b64_value_char by bits.
    replace (N_of_ascii y mod 16 * 4 mod 4 =? 0)%N with true
      by (symmetry; apply N.eqb_eq; bits).
    replace (Demo.byte (N_of_ascii x / 4 * 4
                        + (N_of_ascii x mod 4 * 16 + N_of_ascii y / 16) / 16))
      with (Demo.byte (N_of_ascii x)) by (unfold Demo.byte; f_equal; bits).
    replace (Demo.byte ((N_of_ascii x mod 4 * 16 + N_of_ascii y / 16) * 16
                        + N_of_ascii y mod 16 * 4 / 4))
      with (Demo.byte (N_of_ascii y)) by (unfold Demo.byte; f_equal; bits).
    by rewrite !byte_of_ascii.
  - pose proof (N_ascii_bounded x). pose proof (N_ascii_bounded y).
    pose proof (N_ascii_bounded z).
    cbn [base64url_encode Demo.base64url_decode].
    rewrite !b64_value_char by bits.
    rewrite (IH (String.length rest)); [|simpl in Hlen; lia|done].
    replace (Demo.byte (N_of_ascii x / 4 * 4
                        + (N_of_ascii x mod 4 * 16 + N_of_ascii y / 16) / 16))
      with (Demo.byte (N_of_ascii x)) by (unfold Demo.byte; f_equal; bits).
    replace (Demo.byte ((N_of_ascii x mod 4 * 16 + N_of_ascii y / 16) * 16
                        + (N_of_ascii y mod 16 * 4 + N_of_ascii z / 64) / 4))
      with (Demo.byte (N_of_ascii y)) by (unfold Demo.byte; f_equal; bits).
    replace (Demo.byte ((N_of_ascii y mod 16 * 4 + N_of_ascii z / 64) * 64
                        + N_of_ascii z mod 64))
      with (Demo.byte (N_of_ascii z)) by (unfold Demo.byte; f_equal; bits).
    by rewrite !byte_of_ascii.
Qed.

(** The stand-in decoder reads what the encoding writes. *)
Lemma demo_decode_encode b :
  Demo.base64url_decode (base64url_encode b) = Some b.
Proof. by apply (demo_decode_encode_le (String.length b)). Qed.

Section Expiry.

Variable json_loads : string → option json.
Variable json_error : string → string.
Variable base64url_decode : string → option string.

(** The library's decoder reads what the encoding of RFC 4648 writes. *)
Hypothesis decode_encode :
  ∀ b, base64url_decode (base64url_encode b) = Some b.

#[local] Abbreviation decode :=
  (jwt_decode json_loads json_error base64url_decode).

(** What [jwt.decode] does with a token whose last segment is the encoding
    of a signature: the signature plays no part. *)
Lemma jwt_decode_segments h p signature :
  no_dot h →
  decode (h +:+ "." +:+ p +:+ "." +:+ base64url_encode signature)
  = match base64url_decode h with
    | None => Raise (DecodeError "Invalid header padding")
    | Some header_data =>
    match json_loads header_data with
    | None =>
        Raise (DecodeError
                 ("Invalid header string: " +:+ json_error header_data))
    | Some (JObject headers) =>
    match base64url_decode p with
    | None => Raise (DecodeError "Invalid payload padding")
    | Some payload =>
    if negb (validate_kid headers && validate_crit headers)
    then Raise InvalidTokenError
    else
    if b64_is_false (JObject headers)
    then Raise (DecodeError detached_payload_msg)
    else
    match json_loads payload with
    | None =>
        Raise (DecodeError ("Invalid payload string: " +:+ json_error payload))
    | Some payload =>
    if negb (is_dict payload)
    then Raise (DecodeError "Invalid payload string: must be a json object")
    else Return payload
    end end
    | Some _ =>
        Raise (DecodeError "Invalid header string: must be a json object")
    end end.
Proof.
  intros Hh. unfold jwt_decode.
  replace (h +:+ "." +:+ p +:+ "." +:+ base64url_encode signature)
    with ((h +:+ String "." p) +:+ String "." (base64url_encode signature))
    by exact (append_assoc h (String "." p)
                (String "." (base64url_encode signature))).
  rewrite rsplit_once_dot by apply no_dot_encode.
  rewrite split_once_dot by done.
  destruct (base64url_decode h) as [header_data|]; [|done].
  destruct (json_loads header_data) as [[| | | | | |headers]|]; try done.
  destruct (base64url_decode p) as [payload|]; [|done].
  by rewrite decode_encode.
Qed.

Lemma plain_header_valid header :
  plain_header header →
  validate_kid header = true
  ∧ validate_crit header = true
  ∧ b64_is_false (JObject header) = false.
Proof.
  intros ([Hkid|[kid Hkid]] & Hcrit & Hb64);
    unfold validate_kid, validate_crit, b64_is_false;
    rewrite Hkid, Hcrit; (split_and!; [done..|]);
    by destruct (header !! "b64") as [[| [] | | | | |]|].
Qed.

(** A token in compact form with a plain header: what is left of
    [jwt.decode] is the parsing of the payload. *)
Lemma jwt_decode_compact header_data header payload_data signature :
  json_loads header_data = Some (JObject header) →
  plain_header header →
  decode (compact header_data payload_data signature)
  = match json_loads payload_data with
    | None =>
        Raise (DecodeError
                 ("Invalid payload string: " +:+ json_error payload_data))
    | Some payload =>
        if negb (is_dict payload)
        then Raise (DecodeError "Invalid payload string: must be a json object")
        else Return payload
    end.
Proof.
  intros Hheader (Hkid & Hcrit & Hb64)%plain_header_valid. unfold compact.
  rewrite jwt_decode_segments by apply no_dot_encode.
  rewrite !decode_encode, Hheader. cbv beta iota.
  rewrite Hkid, Hcrit. cbn [negb andb]. by rewrite Hb64.
Qed.


End Expiry.

(** ** The cloud round trip *)

(** One step of a method body. *)
Ltac mstep :=
  rewrite bind_unfold; unfold lift, assign, this, raise; cbv beta iota.

Section Cloud.

Variable random : nat → Q.
Variable cloud : Cloud.
Variable orjson_loads : string → option json.

#[local] Abbreviation post' := (_post_json_with_cloud_client random cloud).
#[local] Abbreviation obtain' := (_obtain_token random cloud orjson_loads).

(** [_obtain_token] up to the answer of the login request. *)
Lemma obtain_login fuel self w n r :
  has_credentials self →
  n < fuel →
  answered_after cloud (posts w) n TokenAuth.JSON_LOGIN_URL
    (login_form self) None r →
  obtain' fuel self w
  = let w1 := after_attempts random TokenAuth.JSON_LOGIN_URL
                (login_form self) None n w in
    if bool_decide (status_code r ≠ 200%Z)
    then (Raise (EnvoyAuthenticationError (login_failed_msg r)), self, w1)
    else
    match orjson_loads (text r) with
    | None => (Raise (EnvoyAuthenticationError (decode_failed_msg r)), self, w1)
    | Some j =>
      match getitem j "is_consumer" with
      | Return c =>
        match getitem j "manager_token" with
        | Return m =>
          let self1 := set_manager_token m (set_is_consumer c self) in
          match getitem j "session_id" with
          | Return sid =>
            match post' fuel TokenAuth.TOKEN_URL None
                    (token_request self sid) self1 w1 with
            | (Return r2, self2, w2) =>
                if bool_decide (status_code r2 ≠ 200%Z)
                then (Raise (EnvoyAuthenticationError (token_failed_msg r2)),
                      self2, w2)
                else (Return (text r2), self2, w2)
            | (Raise e, self2, w2) => (Raise e, self2, w2)
            | (OutOfFuel, self2, w2) => (OutOfFuel, self2, w2)
            end
          | Raise e => (Raise e, self1, w1)
          | OutOfFuel => (OutOfFuel, self1, w1)
          end
        | Raise e => (Raise e, set_is_consumer c self, w1)
        | OutOfFuel => (OutOfFuel, set_is_consumer c self, w1)
        end
      | Raise e => (Raise e, self, w1)
      | OutOfFuel => (OutOfFuel, self, w1)
      end
    end.
Proof.
  intros (Hu & Hp & Hs) Hfuel Hlogin. unfold _obtain_token.
  mstep. rewrite Hu, Hp, Hs. simpl. rewrite bind_unfold.
  rewrite (post_answered random cloud _ _ _ _ _ _ _ _ Hfuel Hlogin).
  fold (login_form self).
  destruct (bool_decide (status_code r ≠ 200%Z)); [done|].
  destruct (orjson_loads (text r)) as [j|]; [|done].
  mstep. destruct (getitem j "is_consumer") as [c| |]; [|done|done].
  mstep. mstep. destruct (getitem j "manager_token") as [m| |]; [|done|done].
  mstep. mstep. destruct (getitem j "session_id") as [sid| |]; [|done|done].
  mstep. rewrite bind_unfold. unfold token_request. simpl.
  destruct (post' _ _ _ _ _ _) as [[[r2| |] self2] w2]; [|done|done].
  by destruct (bool_decide (status_code r2 ≠ 200%Z)).
Qed.

(** C5. With cloud credentials and a serial number, when the login request
    is answered with status 200 and a JSON object that has the three
    entries, and the token request is answered with status 200,
    [_obtain_token] returns the text of that last response as it is. *)
Theorem obtain_token_returns_body fuel self w n1 n2 r1 r2 o c m sid :
  has_credentials self →
  n1 < fuel →
  n2 < fuel →
  answered_after cloud (posts w) n1 TokenAuth.JSON_LOGIN_URL
    (login_form self) None r1 →
  status_code r1 = 200%Z →
  orjson_loads (text r1) = Some (JObject o) →
  o !! "is_consumer" = Some c →
  o !! "manager_token" = Some m →
  o !! "session_id" = Some sid →
  answered_after cloud (posts w + S n1) n2 TokenAuth.TOKEN_URL
    None (token_request self sid) r2 →
  status_code r2 = 200%Z →
  obtain' fuel self w
  = (Return (text r2),
     set_manager_token m (set_is_consumer c self),
     after_attempts random TokenAuth.TOKEN_URL None (token_request self sid)
       n2 (after_attempts random TokenAuth.JSON_LOGIN_URL (login_form self)
             None n1 w)).
Proof.
  intros Hcred Hn1 Hn2 Hlogin Hs1 Hjson Hc Hm Hsid Htoken Hs2.
  rewrite (obtain_login fuel self w n1 r1) by done. cbv zeta.
  rewrite Hs1, Hjson. simpl. rewrite Hc, Hm, Hsid.
  rewrite (post_answered random cloud _ _ _ r2 n2) by done.
  by rewrite Hs2.
Qed.

(** C6. When the login request is answered with status 200 and a text that
    is not JSON, [_obtain_token] raises [EnvoyAuthenticationError], and the
    message ends with the status code and the text of that response. *)
Theorem obtain_token_undecodable_login fuel self w n r :
  has_credentials self →
  n < fuel →
  answered_after cloud (posts w) n TokenAuth.JSON_LOGIN_URL
    (login_form self) None r →
  status_code r = 200%Z →
  orjson_loads (text r) = None →
  obtain' fuel self w
  = (Raise (EnvoyAuthenticationError
       ("Unable to decode response from Enlighten: "
        +:+ pretty (status_code r) +:+ ": " +:+ text r)),
     self,
     after_attempts random TokenAuth.JSON_LOGIN_URL (login_form self) None
       n w)
  ∧ pretty (status_code r) = "200".
Proof.
  intros Hcred Hn Hlogin Hs Hjson.
  rewrite (obtain_login fuel self w n r) by done. cbv zeta.
  rewrite Hjson. unfold decode_failed_msg. rewrite Hs. simpl.
  split; [done|]. by vm_compute.
Qed.

(** C10, as amended. When the login request is answered with status 200
    and a JSON text, [_obtain_token] raises [TypeError] if the text is not
    an object, and [KeyError] for the first of [is_consumer],
    [manager_token], [session_id] that the object lacks; the entries before
    the missing one have been stored, and no token request is made. *)
Theorem obtain_token_incomplete_login fuel self w n r j :
  has_credentials self →
  n < fuel →
  answered_after cloud (posts w) n TokenAuth.JSON_LOGIN_URL
    (login_form self) None r →
  status_code r = 200%Z →
  orjson_loads (text r) = Some j →
  let w1 := after_attempts random TokenAuth.JSON_LOGIN_URL (login_form self)
              None n w in
  (is_dict j = false → obtain' fuel self w = (Raise TypeError, self, w1))
  ∧ (∀ o, j = JObject o →
       o !! "is_consumer" = None →
       obtain' fuel self w = (Raise (KeyError "is_consumer"), self, w1))
  ∧ (∀ o c, j = JObject o →
       o !! "is_consumer" = Some c →
       o !! "manager_token" = None →
       obtain' fuel self w
       = (Raise (KeyError "manager_token"), set_is_consumer c self, w1))
  ∧ (∀ o c m, j = JObject o →
       o !! "is_consumer" = Some c →
       o !! "manager_token" = Some m →
       o !! "session_id" = None →
       obtain' fuel self w
       = (Raise (KeyError "session_id"),
          set_manager_token m (set_is_consumer c self), w1)).
Proof.
  intros Hcred Hn Hlogin Hs Hjson w1.
  rewrite (obtain_login fuel self w n r) by done. cbv zeta.
  rewrite Hs, Hjson. simpl. split_and!.
  - by destruct j.
  - intros o -> Hc. simpl. by rewrite Hc.
  - intros o c -> Hc Hm. simpl. by rewrite Hc, Hm.
  - intros o c m -> Hc Hm Hsid. simpl. by rewrite Hc, Hm, Hsid.
Qed.

(** ** The retry policy *)

Lemma wait_exponential_2_3 k :
  wait_exponential 2 3 k = Z.min (2 * 2 ^ Z.of_nat (k - 1)) 3
  ∧ (2 ≤ wait_exponential 2 3 k ≤ 3)%Z.
Proof.
  unfold wait_exponential.
  pose proof (Z.pow_pos_nonneg 2 (Z.of_nat (k - 1))). lia.
Qed.

Lemma wait_random_exponential_bound k u :
  (0 <= u)%Q → (u <= 1)%Q →
  (0 <= wait_random_exponential 2 3 k u)%Q
  ∧ (wait_random_exponential 2 3 k u
     <= inject_Z (Z.min (2 * 2 ^ Z.of_nat (k - 1)) 3))%Q
  ∧ (wait_random_exponential 2 3 k u <= 3)%Q.
Proof.
  unfold wait_random_exponential.
  destruct (wait_exponential_2_3 k) as [<- Hb].
  generalize dependent (wait_exponential 2 3 k). intros a Ha.
  destruct u as [p q]. unfold Qle. simpl. nia.
Qed.

Lemma attempts_trace_sleeps url data body :
  (∀ k, (0 <= random k)%Q ∧ (random k <= 1)%Q) →
  ∀ n attempt drawn,
    sleeps_within 3 (attempts_trace random url data body n attempt drawn).
Proof.
  intros Hrand. induction n as [|n IH]; intros attempt drawn; simpl.
  - by repeat constructor.
  - constructor; [done|]. constructor; [|apply IH].
    destruct (Hrand drawn) as [H0 H1].
    by destruct (wait_random_exponential_bound attempt _ H0 H1) as (?&?&?).
Qed.

(** The sleep that follows the [k+1]-th failed attempt. *)
Lemma attempts_trace_sleep url data body : ∀ n attempt drawn k,
  k < n →
  ∃ pre post,
    attempts_trace random url data body n attempt drawn
    = pre ++ EvSleep (wait_random_exponential 2 3 (attempt + k)
                        (random (drawn + k))) :: post
    ∧ length pre = 2 * k + 1.
Proof.
  induction n as [|n IH]; intros attempt drawn k Hk; [lia|].
  destruct k as [|k]; simpl.
  - exists [EvPost url body data], (attempts_trace random url data body n
                                      (S attempt) (S drawn)).
    by rewrite !Nat.add_0_r.
  - destruct (IH (S attempt) (S drawn) k) as (pre & post & -> & Hlen); [lia|].
    exists (EvPost url body data
            :: EvSleep (wait_random_exponential 2 3 attempt (random drawn))
            :: pre), post.
    replace (S attempt + k) with (attempt + S k) by lia.
    replace (S drawn + k) with (drawn + S k) by lia.
    split; [done|]. simpl. lia.
Qed.

Lemma answered_at_once start url data body r :
  cloud start url body data = Responds r →
  answered_after cloud start 0 url data body r.
Proof.
  intros H. split; [intros k Hk; lia|]. by rewrite Nat.add_0_r.
Qed.

Lemma rounded_exact x y : (0 <= y)%Q → (x == y)%Q → rounded x y.
Proof. unfold rounded, unit_roundoff. intros Hy Hx. split; lra. Qed.

Lemma wait_random_exponential_rounded k u :
  (0 <= u)%Q →
  rounded (wait_random_exponential 2 3 k u)
    (inject_Z (Z.min (2 * 2 ^ Z.of_nat (k - 1)) 3) * u).
Proof.
  intros Hu. unfold wait_random_exponential.
  destruct (wait_exponential_2_3 k) as [<- Hb].
  apply rounded_exact; [|reflexivity].
  apply Qmult_le_0_compat; [|done].
  change 0%Q with (inject_Z 0). rewrite <- Zle_Qle. lia.
Qed.

(** C7. [_post_json_with_cloud_client] tries again after an exception of
    the classes [NetworkError], [TimeoutException] and
    [RemoteProtocolError] (these and their subclasses, eleven classes of
    httpx), and after no other; it does so without bound: after any number
    of such failures the answer that comes is returned, and while they last
    the call does not end. A response is returned to the caller at once
    whatever its status, and a status other than 200 is turned into an
    error by the check in [_obtain_token]. Before the retry that follows
    attempt [k] it sleeps for [min (2 * 2 ^ (k - 1)) 3] seconds times the
    random number drawn from [[0, 1]], up to the rounding of that product:
    for 3 seconds at most, and for no less than the product allows. *)
Theorem post_retries_transport_errors_only url data body self w :
  (∀ k, (0 <= random k)%Q ∧ (random k <= 1)%Q) →
  (∀ e, retry_on cloud_retry_policy e = true ↔
        ∃ h, e = HTTPXError h
             ∧ h ∈ [ TimeoutException; ConnectTimeout; ReadTimeout;
                     WriteTimeout; PoolTimeout; NetworkError; ConnectError;
                     ReadError; WriteError; CloseError; RemoteProtocolError ])
  ∧ (∀ n r fuel,
       n < fuel →
       answered_after cloud (posts w) n url data body r →
       post' fuel url data body self w
       = (Return r, self, after_attempts random url data body n w))
  ∧ ((∀ k, ∃ e, cloud (posts w + k) url body data = Fails e
                ∧ retry_on cloud_retry_policy e = true) →
     ∀ fuel, (post' fuel url data body self w).1.1 = OutOfFuel)
  ∧ (∀ e fuel,
       cloud (posts w) url body data = Fails e →
       retry_on cloud_retry_policy e = false →
       post' (S fuel) url data body self w
       = (Raise e, self, after_attempts random url data body 0 w))
  ∧ (∀ r fuel,
       has_credentials self →
       cloud (posts w) TokenAuth.JSON_LOGIN_URL None (login_form self)
         = Responds r →
       status_code r ≠ 200%Z →
       obtain' (S fuel) self w
       = (Raise (EnvoyAuthenticationError (login_failed_msg r)), self,
          after_attempts random TokenAuth.JSON_LOGIN_URL (login_form self)
            None 0 w))
  ∧ (∀ n, sleeps_within 3
            (attempts_trace random url data body n 1 (draws w)))
  ∧ (∀ k u, (0 <= u)%Q → (u <= 1)%Q →
       (0 <= wait cloud_retry_policy k u)%Q
       ∧ (wait cloud_retry_policy k u
          <= inject_Z (Z.min (2 * 2 ^ Z.of_nat (k - 1)) 3))%Q)
  ∧ (∀ k u, (0 <= u)%Q → (u <= 1)%Q →
       let high := inject_Z (Z.min (2 * 2 ^ Z.of_nat (k - 1)) 3) in
       (high * u * (1 - (1 # 9007199254740992))
        <= wait cloud_retry_policy k u)%Q
       ∧ (wait cloud_retry_policy k u
          <= high * u * (1 + (1 # 9007199254740992)))%Q)
  ∧ (∀ n k, k < n →
       ∃ pre post,
         attempts_trace random url data body n 1 (draws w)
         = pre ++ EvSleep (wait cloud_retry_policy (S k)
                             (random (draws w + k))) :: post
         ∧ length pre = 2 * k + 1).
Proof.
  intros Hrand. split_and!.
  - intros e. split.
    + destruct e as [| | | | | | |h]; try done.
      intros Hr. exists h. split; [done|].
      destruct h; try discriminate Hr; by repeat constructor.
    + intros (h & -> & Hin).
      repeat (apply elem_of_cons in Hin as [->|Hin]; [done|]).
      by apply elem_of_nil in Hin.
  - intros n r fuel Hfuel Hans. by apply post_answered.
  - intros Hfail fuel. by apply retry_post_forever.
  - intros e fuel He Hr. by apply post_not_retried.
  - intros r fuel Hcred Hr Hstatus.
    rewrite (obtain_login (S fuel) self w 0 r);
      [|done|lia|by apply answered_at_once].
    cbv zeta. by rewrite bool_decide_eq_true_2.
  - intros n. by apply attempts_trace_sleeps.
  - intros k u H0 H1. simpl.
    by destruct (wait_random_exponential_bound k u H0 H1) as (?&?&?).
  - intros k u H0 H1. exact (wait_random_exponential_rounded k u H0).
  - intros n k Hk. apply attempts_trace_sleep. lia.
Qed.

End Cloud.

(** * Further properties *)

Section Further.

Variable random : nat → Q.
Variable cloud : Cloud.
Variable orjson_loads : string → option json.

#[local] Abbreviation post'' := (_post_json_with_cloud_client random cloud).
#[local] Abbreviation obtain'' := (_obtain_token random cloud orjson_loads).
#[local] Abbreviation setup'' := (setup random cloud orjson_loads).
#[local] Abbreviation refresh'' := (refresh random cloud orjson_loads).

(** ** The exceptions of [setup] *)

Lemma raises_only_bind {A B : Type} (P : exn → Prop) (m : M A) (f : A → M B) :
  raises_only P m → (∀ v, raises_only P (f v)) → raises_only P (m ≫= f).
Proof.
  intros Hm Hf self w e self' w'. rewrite bind_unfold.
  destruct (m self w) as [[[v|e1|] self1] w1] eqn:E; intros H.
  - by eapply Hf.
  - injection H as <- <- <-. by eapply Hm.
  - done.
Qed.

Lemma raises_only_raise {A : Type} (P : exn → Prop) e :
  P e → raises_only P (@raise A e).
Proof. by intros HP self w e' self' w' [= <- <- <-]. Qed.

Lemma raises_only_lift {A : Type} (P : exn → Prop) (r : result A) :
  (∀ e, r = Raise e → P e) → raises_only P (lift r).
Proof. intros HP self w e' self' w' [= -> <- <-]. by apply HP. Qed.

Lemma raises_only_quiet {A : Type} (P : exn → Prop) (m : M A) :
  (∀ self w, ∃ v self' w', m self w = (Return v, self', w')) →
  raises_only P m.
Proof.
  intros Hm self w e self' w' H. destruct (Hm self w) as (v & s1 & w1 & E).
  congruence.
Qed.

(** What the retry loop raises, the cloud client has raised, and it is of
    no retried class. *)
Lemma retry_post_raises fuel url data body : ∀ attempt,
  raises_only (λ e, retry_if_exception_type e = false
                    ∧ ∃ n, cloud n url body data = Fails e)
    (retry random cloud_retry_policy fuel attempt
       (cloud_client_post cloud url data body)).
Proof.
  induction fuel as [|fuel IH]; intros attempt self w e self' w' H;
    simpl in H; [done|].
  unfold cloud_client_post in H at 1.
  destruct (cloud (posts w) url body data) as [resp|e1] eqn:E; [done|].
  destruct (retry_if_exception_type e1) eqn:Hr.
  - by eapply IH.
  - injection H as <- <- <-. eauto.
Qed.

Lemma getitem_raises j key e :
  getitem j key = Raise e → e = TypeError ∨ e = KeyError key.
Proof.
  destruct j as [| | | | | |o]; simpl; try (intros [= <-]; by left).
  destruct (o !! key); intros [= <-]. by right.
Qed.

Lemma obtain_raises fuel : raises_only (obtain_error cloud) (obtain'' fuel).
Proof.
  unfold _obtain_token.
  apply raises_only_bind; [by apply raises_only_quiet; eauto|intros self].
  cbv beta.
  destruct (falsy (cloud_username self) || falsy (cloud_password self));
    [apply raises_only_raise; unfold obtain_error; eauto|].
  destruct (falsy (envoy_serial self));
    [apply raises_only_raise; unfold obtain_error; eauto|].
  apply raises_only_bind; [|intros resp; cbv beta].
  { intros s w e s' w' H. apply retry_post_raises in H as [? [n ?]].
    unfold obtain_error. do 6 right. eauto 10. }
  destruct (bool_decide (status_code resp ≠ 200%Z)) eqn:Hs.
  { apply bool_decide_eq_true in Hs. apply raises_only_raise.
    unfold obtain_error. do 2 right. left. eauto. }
  apply bool_decide_eq_false in Hs. apply dec_stable in Hs.
  destruct (orjson_loads (text resp)) as [j|];
    [|apply raises_only_raise; unfold obtain_error; do 3 right; left; eauto].
  apply raises_only_bind; [|intros c; cbv beta].
  { apply raises_only_lift. intros e [->| ->]%getitem_raises;
      unfold obtain_error; [do 4 right; by left|do 5 right; left].
    eexists; split; [done|]. set_solver. }
  apply raises_only_bind; [by apply raises_only_quiet; eauto|intros _].
  apply raises_only_bind; [|intros m; cbv beta].
  { apply raises_only_lift. intros e [->| ->]%getitem_raises;
      unfold obtain_error; [do 4 right; by left|do 5 right; left].
    eexists; split; [done|]. set_solver. }
  apply raises_only_bind; [by apply raises_only_quiet; eauto|intros _].
  apply raises_only_bind; [|intros sid; cbv beta].
  { apply raises_only_lift. intros e [->| ->]%getitem_raises;
      unfold obtain_error; [do 4 right; by left|do 5 right; left].
    eexists; split; [done|]. set_solver. }
  apply raises_only_bind; [by apply raises_only_quiet; eauto|intros self1].
  cbv beta.
  apply raises_only_bind; [|intros resp'; cbv beta].
  { intros s w e s' w' H. apply retry_post_raises in H as [? [n ?]].
    unfold obtain_error. do 6 right. eauto 10. }
  destruct (bool_decide (status_code resp' ≠ 200%Z)) eqn:Hs'.
  - apply bool_decide_eq_true in Hs'. apply raises_only_raise.
    unfold obtain_error. do 2 right. left. eauto.
  - by apply raises_only_quiet; eauto.
Qed.

(** X12. Every exception of [setup] is an authentication error of the module,
    a [TypeError] or [KeyError] from the login response, or an exception
    that one of the two clients raised (for the cloud client, of a class
    that is not retried). *)
Theorem setup_raises fuel client self w e self' w' :
  setup'' fuel client self w = (Raise e, self', w') →
  setup_error cloud client e.
Proof.
  intros H. unfold setup_error. destruct (falsy (_token self)) eqn:Hf.
  - rewrite setup_obtains in H by done.
    destruct (obtain'' fuel self w) as [[[t|e1|] self1] w1] eqn:Ho; [| |done].
    + destruct (falsy (Some t)); [injection H as <- <- <-; eauto|].
      unfold verification in H.
      destruct (client _ _) as [req|e1] eqn:Hc.
      * destruct (bool_decide (status_code req ≠ 200%Z)); [|done].
        injection H as <- <- <-. eauto.
      * injection H as <- <- <-. eauto 10.
    + injection H as <- <- <-. left. by eapply obtain_raises.
  - rewrite setup_verifies in H by done. unfold verification in H.
    destruct (client _ _) as [req|e1] eqn:Hc.
    + destruct (bool_decide (status_code req ≠ 200%Z)); [|done].
      injection H as <- <- <-. eauto.
    + injection H as <- <- <-. eauto 10.
Qed.

(** ** What is sent, and where *)

Lemma retry_post_events fuel url data body : ∀ attempt self w r self' w',
  retry random cloud_retry_policy fuel attempt
    (cloud_client_post cloud url data body) self w = (r, self', w') →
  ∃ evs, trace w' = trace w ++ evs
         ∧ Forall (λ ev, ev = EvPost url body data ∨ ∃ s, ev = EvSleep s) evs.
Proof.
  induction fuel as [|fuel IH]; intros attempt self w r self' w' H; simpl in H.
  - injection H as <- <- <-. exists []. by rewrite app_nil_r.
  - unfold cloud_client_post in H at 1.
    destruct (cloud (posts w) url body data) as [resp|e].
    + injection H as <- <- <-. simpl. eexists. split; [done|].
      constructor; [by left|constructor].
    + destruct (retry_if_exception_type e).
      * apply IH in H as (evs & Ht & Hev). simpl in Ht.
        eexists (_ :: _ :: evs). split; [by rewrite Ht, <- !app_assoc|].
        constructor; [by left|]. constructor; [right; eauto|done].
      * injection H as <- <- <-. simpl. eexists. split; [done|].
        constructor; [by left|constructor].
Qed.

Lemma allowed_event_frame self0 self ev :
  frame self0 self → allowed_event self ev → allowed_event self0 ev.
Proof.
  intros (Hh & Hu & Hp & Hs & _).
  destruct ev as [url hdrs|url body data|s]; simpl; [| |done].
  - unfold TokenAuth.get_endpoint_url. by rewrite Hh.
  - unfold login_form, token_request. by rewrite Hu, Hp, Hs.
Qed.

#[local] Instance traffic_of_preorder self0 : PreOrder (traffic_of self0).
Proof.
  split.
  - intros [self w] Hf. split; [done|]. exists []. by rewrite app_nil_r.
  - intros [s1 w1] [s2 w2] [s3 w3] H12 H23 Hf. simpl in *.
    destruct (H12 Hf) as (Hf2 & evs & Ht & Hev).
    destruct (H23 Hf2) as (Hf3 & evs' & Ht' & Hev').
    split; [done|]. exists (evs ++ evs'). simpl in *.
    split; [by rewrite Ht', Ht, app_assoc|by apply Forall_app].
Qed.

Lemma traffic_this_bind {B : Type} self0 (f : EnvoyTokenAuth → M B) :
  (∀ self, frame self0 self → preserves (traffic_of self0) (f self)) →
  preserves (traffic_of self0) (this ≫= f).
Proof.
  intros Hf self w r self' w' H Hframe. rewrite bind_unfold in H.
  simpl in H. by eapply Hf.
Qed.

Lemma traffic_post self0 fuel url data body :
  allowed_event self0 (EvPost url body data) →
  preserves (traffic_of self0) (post'' fuel url data body).
Proof.
  intros Hev self w r self' w' H Hframe.
  pose proof H as (-> & _)%post_frame.
  apply retry_post_events in H as (evs & Ht & Hevs).
  split; [done|]. exists evs. split; [done|].
  eapply Forall_impl; [done|]. by intros ev [->|[s ->]].
Qed.

Lemma traffic_assign self0 f :
  (∀ self, frame self (f self)) →
  preserves (traffic_of self0) (assign f).
Proof.
  intros Hf self w r self' w' [= <- <- <-] Hframe.
  split; [by eapply frame_trans|]. exists []. by rewrite app_nil_r.
Qed.

Lemma obtain_traffic self0 fuel :
  preserves (traffic_of self0) (obtain'' fuel).
Proof.
  unfold _obtain_token. apply traffic_this_bind. intros self Hframe.
  destruct (falsy (cloud_username self) || falsy (cloud_password self));
    [apply preserves_raise; exact _|].
  destruct (falsy (envoy_serial self)); [apply preserves_raise; exact _|].
  apply preserves_bind; [exact _| |intros resp; cbv beta].
  { apply traffic_post. eapply allowed_event_frame; [done|]. by left. }
  destruct (bool_decide (status_code resp ≠ 200%Z));
    [apply preserves_raise; exact _|].
  destruct (orjson_loads (text resp)) as [j|]; [|apply preserves_raise; exact _].
  apply preserves_bind; [exact _|apply preserves_pure; exact _|intros c].
  apply preserves_bind; [exact _|by apply traffic_assign|intros _].
  apply preserves_bind; [exact _|apply preserves_pure; exact _|intros m].
  apply preserves_bind; [exact _|by apply traffic_assign|intros _].
  apply preserves_bind; [exact _|apply preserves_pure; exact _|intros sid].
  apply traffic_this_bind. intros self1 Hframe1.
  apply preserves_bind; [exact _| |intros resp'; cbv beta].
  { apply traffic_post. eapply allowed_event_frame; [done|]. right.
    split_and!; [done..|]. by exists sid. }
  destruct (bool_decide (status_code resp' ≠ 200%Z));
    [apply preserves_raise; exact _|apply preserves_ret; exact _].
Qed.

Lemma verification_traffic self0 client self w r self' w' :
  host self = host self0 →
  falsy (_token self) = false →
  verification client self w = (r, self', w') →
  (self' = self ∨ ∃ c, self' = set_cookies c self)
  ∧ ∃ ev, trace w' = trace w ++ [ev] ∧ allowed_event self0 ev.
Proof.
  intros Hh Hf Hv. destruct (falsy_false_Some _ Hf) as (t & Ht & Hne).
  split.
  - unfold verification in Hv. destruct (client _ _) as [req|e].
    + destruct (bool_decide (status_code req ≠ 200%Z));
        injection Hv as <- <- <-; eauto.
    + injection Hv as <- <- <-. eauto.
  - apply verification_inv in Hv as (-> & _). eexists. split; [done|]. simpl. split.
    + unfold check_jwt_url, TokenAuth.get_endpoint_url. by rewrite Hh.
    + exists t. split; [done|]. unfold bearer. by rewrite Ht.
Qed.

(** X13. Whatever [setup] sends is the login form to the cloud's login URL, a
    token request with the object's serial number and user name to the
    token URL, or the bearer header to [/auth/check_jwt] on the object's own
    host, as [get_endpoint_url] gives it; nothing else goes out, and the
    host, the credentials and the serial number stay as they are. *)
Theorem setup_traffic fuel client self w r self' w' :
  setup'' fuel client self w = (r, self', w') →
  host self' = host self
  ∧ cloud_username self' = cloud_username self
  ∧ cloud_password self' = cloud_password self
  ∧ envoy_serial self' = envoy_serial self
  ∧ ∃ evs, trace w' = trace w ++ evs ∧ Forall (allowed_event self) evs.
Proof.
  intros H. destruct (falsy (_token self)) eqn:Hf.
  - rewrite setup_obtains in H by done.
    destruct (obtain'' fuel self w) as [[r1 self1] w1] eqn:Ho.
    destruct (obtain_traffic self fuel _ _ _ _ _ Ho (frame_refl self))
      as ((Hh & Hu & Hp & Hs & _) & evs & Ht & Hev).
    simpl in *.
    destruct r1 as [t|e1|].
    + destruct (bool_decide (t = "")) eqn:Hft.
      { injection H as <- <- <-. simpl. eauto 10. }
      eapply (verification_traffic self) in H as (Hself & ev & Ht' & Hev');
        [|done..].
      assert (∃ evs', trace w' = trace w ++ evs'
                      ∧ Forall (allowed_event self) evs') as Htr.
      { exists (evs ++ [ev]). split; [by rewrite Ht', Ht, app_assoc|].
        apply Forall_app. by split; [|constructor]. }
      by destruct Hself as [->|[c ->]].
    + injection H as <- <- <-. eauto 10.
    + injection H as <- <- <-. eauto 10.
  - rewrite setup_verifies in H by done.
    eapply (verification_traffic self) in H as (Hself & ev & Ht' & Hev');
      [|done..].
    assert (∃ evs', trace w' = trace w ++ evs'
                    ∧ Forall (allowed_event self) evs') as Htr.
    { exists [ev]. split; [done|]. by constructor. }
    by destruct Hself as [->|[c ->]].
Qed.

(** ** The failures of the cloud round trip *)

(** X1. Without a user name or without a password nothing is sent:
    [_obtain_token] and [refresh] raise the authentication error at once,
    whatever the serial number is, and so does [setup] when it holds no
    token; the object is left as it was. *)
Theorem no_credentials_no_traffic fuel client self w :
  falsy (cloud_username self) || falsy (cloud_password self) = true →
  let e := EnvoyAuthenticationError
    "Your firmware requires token authentication,  but no cloud credentials were provided to obtain the token." in
  obtain'' fuel self w = (Raise e, self, w)
  ∧ refresh'' fuel self w = (Raise e, self, w)
  ∧ (falsy (_token self) = true →
     setup'' fuel client self w = (Raise e, self, w)).
Proof.
  intros Hc e.
  assert (obtain'' fuel self w = (Raise e, self, w)) as Ho.
  { unfold _obtain_token. mstep. by rewrite Hc. }
  split_and!; [done| |].
  - unfold refresh. rewrite bind_unfold. by rewrite Ho.
  - intros Hf. rewrite setup_obtains by done. by rewrite Ho.
Qed.

(** X2. With a user name and a password but without a serial number nothing
    is sent either. *)
Theorem no_serial_no_traffic fuel client self w :
  falsy (cloud_username self) = false →
  falsy (cloud_password self) = false →
  falsy (envoy_serial self) = true →
  let e := EnvoyAuthenticationError
    "Your firmware requires token authentication, but no envoy serial number was provided to obtain the token." in
  obtain'' fuel self w = (Raise e, self, w)
  ∧ refresh'' fuel self w = (Raise e, self, w)
  ∧ (falsy (_token self) = true →
     setup'' fuel client self w = (Raise e, self, w)).
Proof.
  intros Hu Hp Hs e.
  assert (obtain'' fuel self w = (Raise e, self, w)) as Ho.
  { unfold _obtain_token. mstep. by rewrite Hu, Hp, Hs. }
  split_and!; [done| |].
  - unfold refresh. rewrite bind_unfold. by rewrite Ho.
  - intros Hf. rewrite setup_obtains by done. by rewrite Ho.
Qed.

(** X3. When the login request is answered with a status other than 200,
    [_obtain_token] raises an authentication error that names the login
    URL, the status and the body; no token request follows, [setup] sends
    nothing to the device, and the object is left as it was. *)
Theorem login_refused fuel client self w n r :
  has_credentials self →
  n < fuel →
  answered_after cloud (posts w) n TokenAuth.JSON_LOGIN_URL
    (login_form self) None r →
  status_code r ≠ 200%Z →
  let e := EnvoyAuthenticationError
    ("Unable to login to Enlighten to obtain session ID from https://enlighten.enphaseenergy.com/login/login.json?: "
     +:+ pretty (status_code r) +:+ ": " +:+ text r) in
  let w' := after_attempts random TokenAuth.JSON_LOGIN_URL (login_form self)
              None n w in
  obtain'' fuel self w = (Raise e, self, w')
  ∧ (falsy (_token self) = true →
     setup'' fuel client self w = (Raise e, self, w')).
Proof.
  intros Hcred Hn Hlogin Hstatus e w'.
  assert (obtain'' fuel self w = (Raise e, self, w')) as Ho.
  { rewrite (obtain_login random cloud orjson_loads fuel self w n r) by done.
    cbv zeta. by rewrite bool_decide_eq_true_2. }
  split; [done|]. intros Hf. rewrite setup_obtains by done. by rewrite Ho.
Qed.

(** [_obtain_token] when both requests are answered with status 200. *)
Lemma obtain_round_trip fuel self w n1 n2 r1 r2 o c m sid :
  has_credentials self →
  n1 < fuel →
  n2 < fuel →
  answered_after cloud (posts w) n1 TokenAuth.JSON_LOGIN_URL
    (login_form self) None r1 →
  status_code r1 = 200%Z →
  orjson_loads (text r1) = Some (JObject o) →
  o !! "is_consumer" = Some c →
  o !! "manager_token" = Some m →
  o !! "session_id" = Some sid →
  answered_after cloud (posts w + S n1) n2 TokenAuth.TOKEN_URL
    None (token_request self sid) r2 →
  obtain'' fuel self w
  = let self1 := set_manager_token m (set_is_consumer c self) in
    let w2 := after_attempts random TokenAuth.TOKEN_URL None
                (token_request self sid) n2
                (after_attempts random TokenAuth.JSON_LOGIN_URL
                   (login_form self) None n1 w) in
    if bool_decide (status_code r2 ≠ 200%Z)
    then (Raise (EnvoyAuthenticationError (token_failed_msg r2)), self1, w2)
    else (Return (text r2), self1, w2).
Proof.
  intros Hcred Hn1 Hn2 Hlogin Hs1 Hjson Hc Hm Hsid Htoken.
  rewrite (obtain_login random cloud orjson_loads fuel self w n1 r1) by done.
  cbv zeta. rewrite Hs1, Hjson. simpl. rewrite Hc, Hm, Hsid.
  by rewrite (post_answered random cloud _ _ _ r2 n2).
Qed.

(** X4. When the login succeeds and the token request is answered with a status
    other than 200, [_obtain_token] raises an authentication error that
    names the token URL, the status and the body; by then the consumer flag
    and the manager token of the login response are stored, the token is
    not. *)
Theorem token_refused_after_login fuel self w n1 n2 r1 r2 o c m sid :
  has_credentials self →
  n1 < fuel →
  n2 < fuel →
  answered_after cloud (posts w) n1 TokenAuth.JSON_LOGIN_URL
    (login_form self) None r1 →
  status_code r1 = 200%Z →
  orjson_loads (text r1) = Some (JObject o) →
  o !! "is_consumer" = Some c →
  o !! "manager_token" = Some m →
  o !! "session_id" = Some sid →
  answered_after cloud (posts w + S n1) n2 TokenAuth.TOKEN_URL
    None (token_request self sid) r2 →
  status_code r2 ≠ 200%Z →
  ∃ self' w',
    obtain'' fuel self w
    = (Raise (EnvoyAuthenticationError
         ("Unable to obtain token for Envoy authentication from https://entrez.enphaseenergy.com/tokens: "
          +:+ pretty (status_code r2) +:+ ": " +:+ text r2)),
       self', w')
    ∧ _is_consumer self' = Bound c
    ∧ _manager_token self' = Bound m
    ∧ _token self' = _token self
    ∧ posts w' = posts w + S n1 + S n2.
Proof.
  intros Hcred Hn1 Hn2 Hlogin Hs1 Hjson Hc Hm Hsid Htoken Hs2.
  rewrite (obtain_round_trip fuel self w n1 n2 r1 r2 o c m sid) by done.
  cbv zeta. rewrite bool_decide_eq_true_2 by done.
  eexists _, _. by split_and!.
Qed.

(** ** [setup] that returns *)

Lemma verification_returns client self w self' w' :
  verification client self w = (Return (), self', w') →
  ∃ req, client (check_jwt_url self) (bearer self) = Responds req
         ∧ status_code req = 200%Z
         ∧ self' = set_cookies (resp_cookies req) self.
Proof.
  unfold verification. destruct (client _ _) as [req|e]; [|done].
  destruct (bool_decide (status_code req ≠ 200%Z)) eqn:Hs; [done|].
  intros [= <- <-]. exists req. split_and!; try done.
  apply bool_decide_eq_false in Hs. by apply dec_stable in Hs.
Qed.

(** A [setup] that returns has ended with a [verification] that returned,
    on an object with a token. *)
Lemma setup_returned_verified fuel client self w self' w' :
  setup'' fuel client self w = (Return (), self', w') →
  ∃ s1 w1, falsy (_token s1) = false
           ∧ verification client s1 w1 = (Return (), self', w').
Proof.
  intros H. destruct (falsy (_token self)) eqn:Hf.
  - rewrite setup_obtains in H by done.
    destruct (obtain'' fuel self w) as [[[t| |] self1] w1]; [|done..].
    destruct (falsy (Some t)) eqn:Ht; [done|].
    by exists (set_token (Some t) self1), w1.
  - rewrite setup_verifies in H by done. by exists self, w.
Qed.

(** X9. When [setup] returns, the object holds a token that is not empty, the
    device has answered 200 to the GET of [get_endpoint_url
    "/auth/check_jwt"] carrying exactly the headers that [headers] returns
    from then on, and [cookies] returns the cookies of that answer. *)
Theorem setup_returns fuel client self w self' w' :
  setup'' fuel client self w = (Return (), self', w') →
  ∃ t hdrs req,
    _token self' = Some t ∧ t ≠ ""
    ∧ TokenAuth.headers self' = Return hdrs
    ∧ client (TokenAuth.get_endpoint_url self' "/auth/check_jwt") hdrs
      = Responds req
    ∧ status_code req = 200%Z
    ∧ TokenAuth.cookies self' = Return (resp_cookies req)
    ∧ last (trace w')
      = Some (EvGet (TokenAuth.get_endpoint_url self' "/auth/check_jwt")
                hdrs).
Proof.
  intros (s1 & w1 & Hf1 & Hv)%setup_returned_verified.
  destruct (falsy_false_Some _ Hf1) as (t & Ht & Hne).
  pose proof Hv as (-> & _)%verification_inv.
  apply verification_returns in Hv as (req & Hreq & Hs & ->).
  exists t, (bearer s1), req. unfold TokenAuth.headers, TokenAuth.token.
  simpl. rewrite Ht. split_and!; try done.
  - unfold bearer. by rewrite Ht.
  - by rewrite last_snoc.
Qed.

(** X7. The whole of [setup] on an object that holds no token: when the login
    and the token request are answered with status 200 (after any number
    of retried failures), the login response is a JSON object with the
    three entries, the token is not empty and the device answers 200,
    [setup] returns; the object then holds the token, the consumer flag and
    the manager token of the login, and the cookies of the device. *)
Theorem setup_round_trip fuel client self w n1 n2 r1 r2 o c m sid req :
  falsy (_token self) = true →
  has_credentials self →
  n1 < fuel →
  n2 < fuel →
  answered_after cloud (posts w) n1 TokenAuth.JSON_LOGIN_URL
    (login_form self) None r1 →
  status_code r1 = 200%Z →
  orjson_loads (text r1) = Some (JObject o) →
  o !! "is_consumer" = Some c →
  o !! "manager_token" = Some m →
  o !! "session_id" = Some sid →
  answered_after cloud (posts w + S n1) n2 TokenAuth.TOKEN_URL
    None (token_request self sid) r2 →
  status_code r2 = 200%Z →
  text r2 ≠ "" →
  client (TokenAuth.get_endpoint_url self "/auth/check_jwt")
    {[ "Authorization" := "Bearer " +:+ text r2 ]} = Responds req →
  status_code req = 200%Z →
  ∃ w',
    setup'' fuel client self w
    = (Return (),
       set_cookies (resp_cookies req)
         (set_token (Some (text r2))
            (set_manager_token m (set_is_consumer c self))),
       w')
    ∧ posts w' = posts w + S n1 + S n2
    ∧ last (trace w')
      = Some (EvGet (TokenAuth.get_endpoint_url self "/auth/check_jwt")
                {[ "Authorization" := "Bearer " +:+ text r2 ]}).
Proof.
  intros Hf Hcred Hn1 Hn2 Hlogin Hs1 Hjson Hc Hm Hsid Htoken Hs2 Hne Hreq Hs.
  rewrite setup_obtains by done.
  rewrite (obtain_round_trip fuel self w n1 n2 r1 r2 o c m sid) by done.
  cbv zeta. rewrite bool_decide_eq_false_2 by (by intros ?).
  simpl. rewrite bool_decide_eq_false_2 by done.
  unfold verification, check_jwt_url, bearer. simpl.
  unfold TokenAuth.get_endpoint_url in Hreq. rewrite Hreq.
  rewrite bool_decide_eq_false_2 by (by intros ?).
  eexists. split_and!; [done|done|]. simpl. by rewrite last_snoc.
Qed.

(** X8. When the token request is answered with status 200 and an empty body,
    [setup] raises "Unable to obtain token for Envoy authentication." and
    sends nothing to the device. *)
Theorem setup_empty_token_body fuel client self w n1 n2 r1 r2 o c m sid :
  falsy (_token self) = true →
  has_credentials self →
  n1 < fuel →
  n2 < fuel →
  answered_after cloud (posts w) n1 TokenAuth.JSON_LOGIN_URL
    (login_form self) None r1 →
  status_code r1 = 200%Z →
  orjson_loads (text r1) = Some (JObject o) →
  o !! "is_consumer" = Some c →
  o !! "manager_token" = Some m →
  o !! "session_id" = Some sid →
  answered_after cloud (posts w + S n1) n2 TokenAuth.TOKEN_URL
    None (token_request self sid) r2 →
  status_code r2 = 200%Z →
  text r2 = "" →
  ∃ self' w' evs,
    setup'' fuel client self w
    = (Raise (EnvoyAuthenticationError
         "Unable to obtain token for Envoy authentication."), self', w')
    ∧ trace w' = trace w ++ evs
    ∧ Forall cloud_event evs
    ∧ _cookies self' = _cookies self.
Proof.
  intros Hf Hcred Hn1 Hn2 Hlogin Hs1 Hjson Hc Hm Hsid Htoken Hs2 Hempty.
  pose proof (obtain_round_trip fuel self w n1 n2 r1 r2 o c m sid) as Ho.
  cbv zeta in Ho. rewrite bool_decide_eq_false_2 in Ho by (by intros ?).
  specialize (Ho Hcred Hn1 Hn2 Hlogin Hs1 Hjson Hc Hm Hsid Htoken).
  pose proof Ho as (_ & _ & _ & evs & Ht & Hev)%obtain_frame.
  rewrite setup_obtains by done. rewrite Ho, Hempty. simpl.
  eexists _, _, evs. by split_and!.
Qed.

(** X10. When [setup] has returned, a [setup] started next on the object
    as that call left it makes no cloud round trip, in whatever environment
    it runs: it sends the one GET and nothing else. *)
Theorem setup_again_skips_cloud fuel client self w self1 w1
    random' cloud' loads' fuel' client' w2 :
  setup'' fuel client self w = (Return (), self1, w1) →
  let '(r, self3, w3) := setup random' cloud' loads' fuel' client' self1 w2 in
  posts w3 = posts w2
  ∧ draws w3 = draws w2
  ∧ trace w3
    = trace w2 ++ [EvGet (TokenAuth.get_endpoint_url self1 "/auth/check_jwt")
                     {[ "Authorization"
                        := "Bearer " +:+ str_of (_token self1) ]}]
  ∧ _token self3 = _token self1.
Proof.
  intros (s1 & w0 & Hf1 & Hv)%setup_returned_verified.
  apply verification_returns in Hv as (req0 & _ & _ & Heq).
  assert (falsy (_token self1) = false) as Hf by (by rewrite Heq).
  clear Heq. rewrite setup_verifies by done.
  destruct (verification client' self1 w2) as [[r self3] w3] eqn:Hv.
  pose proof Hv as (-> & _)%verification_inv. simpl. split_and!; try done.
  unfold verification in Hv. destruct (client' _ _) as [req|e].
  - by destruct (bool_decide (status_code req ≠ 200%Z));
      injection Hv as <- <-.
  - by injection Hv as <- <-.
Qed.

(** X11. The verification request is not retried: when the local client raises
    an exception, be it of a class that is retried towards the cloud,
    [setup] raises that exception after this one GET, and the cookies stay
    as they were. *)
Theorem setup_get_not_retried fuel client self w r self' w' evs url hdrs e :
  setup'' fuel client self w = (r, self', w') →
  trace w' = trace w ++ evs →
  EvGet url hdrs ∈ evs →
  client url hdrs = Fails e →
  r = Raise e
  ∧ _cookies self' = _cookies self
  ∧ ∃ evs0, evs = evs0 ++ [EvGet url hdrs] ∧ Forall cloud_event evs0.
Proof.
  intros Hsetup Htrace Hin Hfails.
  assert (∀ s1 w1, verification client s1 w1 = (r, self', w') →
            client (check_jwt_url s1) (bearer s1) = Fails e →
            r = Raise e ∧ self' = s1) as Hverif.
  { intros s1 w1 Hv Hc. unfold verification in Hv. rewrite Hc in Hv.
    by injection Hv as <- <-. }
  destruct (falsy (_token self)) eqn:Hf.
  - rewrite setup_obtains in Hsetup by done.
    destruct (obtain'' fuel self w) as [[r1 self1] w1] eqn:Hobtain.
    apply obtain_frame in Hobtain as (Hframe & _ & _ & evs1 & Ht1 & Hev1).
    assert (EvGet url hdrs ∉ evs1) as Hnot.
    { intros Hin1. by eapply (Forall_forall cloud_event) in Hin1. }
    destruct r1 as [t| |].
    + destruct (falsy (Some t)).
      * injection Hsetup as <- <- <-. rewrite Ht1 in Htrace.
        by apply app_inv_head in Htrace as <-.
      * pose proof Hsetup as (-> & _)%verification_inv.
        simpl in Htrace. rewrite Ht1, <- app_assoc in Htrace.
        apply app_inv_head in Htrace as <-.
        apply elem_of_app in Hin as [?|Hin]; [done|].
        apply list_elem_of_singleton in Hin as [= -> ->].
        destruct (Hverif _ _ Hsetup Hfails) as [-> ->].
        split_and!; [done|apply Hframe|by exists evs1].
    + injection Hsetup as <- <- <-. rewrite Ht1 in Htrace.
      by apply app_inv_head in Htrace as <-.
    + injection Hsetup as <- <- <-. rewrite Ht1 in Htrace.
      by apply app_inv_head in Htrace as <-.
  - rewrite setup_verifies in Hsetup by done.
    pose proof Hsetup as (-> & _)%verification_inv.
    simpl in Htrace. apply app_inv_head in Htrace as <-.
    apply list_elem_of_singleton in Hin as [= -> ->].
    destruct (Hverif _ _ Hsetup Hfails) as [-> ->].
    split_and!; [done|done|by exists []].
Qed.

(** ** [refresh] *)

(** X14. [refresh] sends nothing to the device and leaves the cookies, the host
    and the credentials as they are; when it does not return, the token is
    the one held before. *)
Theorem refresh_keeps_session fuel self w r self' w' :
  refresh'' fuel self w = (r, self', w') →
  frame self self'
  ∧ (r ≠ Return () → _token self' = _token self)
  ∧ ∃ evs, trace w' = trace w ++ evs ∧ Forall cloud_event evs.
Proof.
  unfold refresh. rewrite bind_unfold.
  destruct (obtain'' fuel self w) as [[r1 self1] w1] eqn:Ho.
  apply obtain_frame in Ho as (Hframe & Htoken & _ & Hev).
  destruct r1 as [t| |]; intros [= <- <- <-]; by split_and!.
Qed.


(** ** The login's values *)

(** X16. After a cloud round trip that succeeded, [is_consumer] returns the
    [is_consumer] entry of the login response; [manager_token] returns its
    [manager_token] entry, unless that is [null]: then it fails with
    [AssertionError]. *)
Theorem login_values_after_round_trip fuel self w n1 n2 r1 r2 o c m sid :
  has_credentials self →
  n1 < fuel →
  n2 < fuel →
  answered_after cloud (posts w) n1 TokenAuth.JSON_LOGIN_URL
    (login_form self) None r1 →
  status_code r1 = 200%Z →
  orjson_loads (text r1) = Some (JObject o) →
  o !! "is_consumer" = Some c →
  o !! "manager_token" = Some m →
  o !! "session_id" = Some sid →
  answered_after cloud (posts w + S n1) n2 TokenAuth.TOKEN_URL
    None (token_request self sid) r2 →
  status_code r2 = 200%Z →
  let self' := (obtain'' fuel self w).1.2 in
  TokenAuth.is_consumer self' = Return c
  ∧ TokenAuth.manager_token self'
    = match m with
      | JNull => Raise AssertionError
      | _ => Return m
      end.
Proof.
  intros Hcred Hn1 Hn2 Hlogin Hs1 Hjson Hc Hm Hsid Htoken Hs2.
  rewrite (obtain_round_trip fuel self w n1 n2 r1 r2 o c m sid) by done.
  cbv zeta. rewrite bool_decide_eq_false_2 by (by intros ?).
  simpl. split; [done|]. unfold TokenAuth.manager_token. simpl.
  by destruct m.
Qed.

(** ** The waits *)

(** X6. The wait after the first failed attempt is twice the random number
    drawn from [[0, 1]], and after every later failed attempt it is three
    times the random number, up to the rounding of that product. *)
Theorem wait_two_then_three k u :
  (0 <= u)%Q →
  (u <= 1)%Q →
  (wait cloud_retry_policy 1 u == 2 * u)%Q
  ∧ (3 * u * (1 - (1 # 9007199254740992))
     <= wait cloud_retry_policy (S (S k)) u)%Q
  ∧ (wait cloud_retry_policy (S (S k)) u
     <= 3 * u * (1 + (1 # 9007199254740992)))%Q.
Proof.
  intros Hu _.
  assert (wait_exponential 2 3 (S (S k)) = 3%Z) as H3.
  { unfold wait_exponential.
    replace (S (S k) - 1) with (S k) by lia.
    assert (2 * 2 ^ 1 ≤ 2 * 2 ^ Z.of_nat (S k))%Z.
    { apply Z.mul_le_mono_nonneg_l; [lia|].
      apply Z.pow_le_mono_r; lia. }
    lia. }
  unfold cloud_retry_policy, wait, wait_random_exponential.
  rewrite H3. split; [reflexivity|].
  change (inject_Z 3) with 3%Q. split; lra.
Qed.

(** ** What the retry loop hands back *)

Lemma retry_post_ended url data body : ∀ fuel attempt self w r self' w',
  retry random cloud_retry_policy fuel attempt
    (cloud_client_post cloud url data body) self w = (r, self', w') →
  r ≠ OutOfFuel →
  ∃ n, n < fuel
    ∧ retryable_failures cloud (posts w) n url data body
    ∧ w' = {| posts := posts w + S n;
              draws := draws w + n;
              trace := trace w ++ attempts_trace random url data body n
                                    attempt (draws w) |}
    ∧ match r with
      | Return resp => cloud (posts w + n) url body data = Responds resp
      | Raise e => cloud (posts w + n) url body data = Fails e
                   ∧ retry_if_exception_type e = false
      | OutOfFuel => False
      end.
Proof.
  induction fuel as [|fuel IH]; intros attempt self w r self' w' H Hr;
    simpl in H; [by injection H as <- <- <-|].
  unfold cloud_client_post in H at 1.
  destruct (cloud (posts w) url body data) as [resp|e] eqn:Hc.
  - injection H as <- <- <-. exists 0. rewrite !Nat.add_0_r.
    split_and!; [lia|intros k Hk; lia| |done].
    apply world_eq; [lia|done..].
  - destruct (retry_if_exception_type e) eqn:He.
    + apply IH in H as (n & Hn & Hfail & -> & Hlast); [|done]. simpl in *.
      exists (S n). split_and!.
      * lia.
      * intros [|k] Hk.
        -- rewrite Nat.add_0_r. eauto.
        -- destruct (Hfail k) as (e' & He' & Hr'); [lia|]. exists e'.
           by replace (posts w + S k) with (S (posts w) + k) by lia.
      * apply world_eq; [lia|lia|]. by rewrite <- !app_assoc.
      * by replace (posts w + S n) with (S (posts w) + n) by lia.
    + injection H as <- <- <-. exists 0. rewrite !Nat.add_0_r.
      split_and!; [lia|intros k Hk; lia| |done..].
      apply world_eq; [lia|done..].
Qed.

(** X5. What [_post_json_with_cloud_client] returns is the response the cloud
    gave to its last attempt, and what it raises is the exception of its
    last attempt, of a class that is not retried; every earlier attempt
    failed with an exception of a retried class, and was followed by one
    sleep. *)
Theorem post_hands_back_last_answer fuel url data body self w r self' w' :
  post'' fuel url data body self w = (r, self', w') →
  r ≠ OutOfFuel →
  ∃ n, n < fuel
    ∧ retryable_failures cloud (posts w) n url data body
    ∧ self' = self
    ∧ w' = after_attempts random url data body n w
    ∧ match r with
      | Return resp => cloud (posts w + n) url body data = Responds resp
      | Raise e => cloud (posts w + n) url body data = Fails e
                   ∧ retry_if_exception_type e = false
      | OutOfFuel => False
      end.
Proof.
  intros H Hr. pose proof H as (-> & _)%post_frame.
  apply retry_post_ended in H as (n & ? & ? & ? & ?); [|done].
  exists n. by split_and!.
Qed.

End Further.

(** ** The expiry, when it fails *)

Lemma rsplit_once_dots s :
  match rsplit_once s with
  | Some (a, _) => dots s = S (dots a)
  | None => dots s = 0
  end.
Proof.
  induction s as [|c s IH]; simpl; [done|].
  destruct (rsplit_once s) as [[a b]|]; simpl.
  - rewrite IH. lia.
  - rewrite IH. by destruct (Ascii.eqb c ".").
Qed.

Lemma split_once_dots s : dots s = 0 → split_once s = None.
Proof.
  induction s as [|c s IH]; simpl; [done|].
  destruct (Ascii.eqb c "."); [done|]. intros Hd. by rewrite IH.
Qed.

Section ExpiryFailures.

Variable json_loads : string → option json.
Variable json_error : string → string.
Variable base64url_decode : string → option string.

Hypothesis decode_encode :
  ∀ b, base64url_decode (base64url_encode b) = Some b.

#[local] Abbreviation expiry :=
  (expire_timestamp json_loads json_error base64url_decode).

(** X18. A token with fewer than three segments (no dot, or one dot only) is
    refused with [DecodeError]. *)
Theorem expire_timestamp_too_few_segments self t :
  _token self = Some t →
  dots t < 2 →
  expiry self = Raise (DecodeError "Not enough segments").
Proof.
  intros Ht Hd. unfold expire_timestamp, TokenAuth.token, jwt_decode.
  rewrite Ht. simpl. pose proof (rsplit_once_dots t) as Hr.
  destruct (rsplit_once t) as [[a b]|]; [|done].
  by rewrite split_once_dots by lia.
Qed.

(** X19. The bytes of the signature are not looked at: two tokens with the
    same header and payload segments, each followed by the base64url
    encoding of a signature, have the same expiry or fail alike. *)
Theorem expire_timestamp_ignores_signature self self' h p signature
    signature' :
  no_dot h →
  _token self = Some (h +:+ "." +:+ p +:+ "." +:+ base64url_encode signature) →
  _token self'
  = Some (h +:+ "." +:+ p +:+ "." +:+ base64url_encode signature') →
  expire_timestamp json_loads json_error base64url_decode self
  = expire_timestamp json_loads json_error base64url_decode self'.
Proof.
  intros Hh Ht Ht'.
  unfold expire_timestamp, TokenAuth.token. rewrite Ht, Ht'. simpl.
  by rewrite !(jwt_decode_segments json_loads json_error base64url_decode
                 decode_encode) by done.
Qed.

(** X20. For a token in compact form with a plain header whose payload is
    a JSON object without an [exp] entry, [expire_timestamp] raises
    [KeyError]. *)
Theorem expire_timestamp_without_exp self header_data header payload_data
    payload signature :
  _token self = Some (compact header_data payload_data signature) →
  json_loads header_data = Some (JObject header) →
  plain_header header →
  json_loads payload_data = Some (JObject payload) →
  payload !! "exp" = None →
  expire_timestamp json_loads json_error base64url_decode self
  = Raise (KeyError "exp").
Proof.
  intros Ht Hheader Hplain Hpayload Hexp.
  unfold expire_timestamp, TokenAuth.token. rewrite Ht. simpl.
  rewrite (jwt_decode_compact json_loads json_error base64url_decode
             decode_encode header_data header) by done.
  rewrite Hpayload. simpl. by rewrite Hexp.
Qed.

End ExpiryFailures.

(** * The claims on the scenarios *)

Import Scenario.

(** For [setup] the empty string is no token: it goes to the cloud. *)
Example setup_with_empty_token_obtains :
  posts (setup random (scripted [Responds login_ok; Responds token_ok])
           Demo.loads 1 (device 200)
           (TokenAuth.init "envoy.local" (Some "installer@example.com")
              (Some "correct horse") (Some "122000000001") (Some ""))
           start).2 = 2.
Proof. reflexivity. Qed.

(** C1 does not hold as stated: after this failed [setup] the object holds
    the token, the manager token and the consumer flag it did not hold
    before. *)
Lemma failed_setup_exposes_cloud_state :
  rejected.1.1 = Raise (EnvoyAuthenticationError not_verified_msg)
  ∧ TokenAuth.token installer = Raise AssertionError
  ∧ TokenAuth.token rejected.1.2 = Return jwt
  ∧ TokenAuth.manager_token installer
    = Raise (AttributeError "_manager_token")
  ∧ TokenAuth.manager_token rejected.1.2 = Return (JString "mt-1")
  ∧ TokenAuth.is_consumer installer = Raise (AttributeError "_is_consumer")
  ∧ TokenAuth.is_consumer rejected.1.2 = Return (JBool true)
  ∧ rejected.1.2 ≠ installer.
Proof. by split_and!; vm_compute. Qed.

Lemma failed_setup_state_witness :
  frame installer rejected.1.2
  ∧ (falsy (_token holder) = false → stale.1.2 = holder).
Proof.
  split.
  - apply (failed_setup_state random
             (scripted [Responds login_ok; Responds token_ok]) Demo.loads 1
             (device 401) installer start
             (EnvoyAuthenticationError not_verified_msg)
             rejected.1.2 rejected.2).
    vm_compute. reflexivity.
  - apply (failed_setup_state random (scripted []) Demo.loads 0 (device 401)
             holder start (EnvoyAuthenticationError not_verified_msg)
             stale.1.2 stale.2).
    vm_compute. reflexivity.
Defined.

(** C2 does not hold as stated: with the empty string as token, be it
    passed to the constructor or obtained by [refresh] from an empty
    response, [headers] does not fail. *)
Lemma headers_of_empty_token :
  let self := TokenAuth.init "envoy.local" None None None (Some "") in
  let refreshed :=
    (refresh random (scripted [Responds login_ok; Responds token_empty])
       Demo.loads 1 installer start).1.2 in
  falsy (_token self) = true
  ∧ TokenAuth.headers self = Return {[ "Authorization" := "Bearer " ]}
  ∧ _token refreshed = Some ""
  ∧ TokenAuth.headers refreshed = Return {[ "Authorization" := "Bearer " ]}
  ∧ TokenAuth.headers self ≠ Raise AssertionError.
Proof. by split_and!; vm_compute. Qed.

Lemma setup_with_token_skips_cloud_witness :
  setup random flaky Demo.loads 0 (device 200) holder start
  = (Return (),
     set_cookies {[ "sessionId" := "bEWbDyXx" ]} holder,
     mkWorld 0 0
       [EvGet "https://envoy.local/auth/check_jwt"
          {[ "Authorization" := "Bearer " +:+ jwt ]}]).
Proof.
  rewrite (proj1 (setup_with_token_skips_cloud random flaky Demo.loads 0
                    (device 200) holder start eq_refl)).
  reflexivity.
Defined.

Lemma setup_rejects_unverified_token_witness :
  rejected.1.1 = Raise (EnvoyAuthenticationError not_verified_msg)
  ∧ _cookies rejected.1.2 = _cookies installer.
Proof.
  apply (setup_rejects_unverified_token random
           (scripted [Responds login_ok; Responds token_ok]) Demo.loads 1
           (device 401) installer start rejected.1.1 rejected.1.2 rejected.2
           (trace rejected.2)
           "https://envoy.local/auth/check_jwt"
           {[ "Authorization" := "Bearer " +:+ jwt ]}
           (mkResponse 401 "" {[ "sessionId" := "bEWbDyXx" ]})).
  - vm_compute. reflexivity.
  - reflexivity.
  - vm_compute. do 2 apply list_elem_of_further. apply list_elem_of_here.
  - reflexivity.
  - discriminate.
Defined.

Lemma installer_has_credentials : has_credentials installer.
Proof. by split_and!. Defined.

Lemma obtain_token_returns_body_witness :
  (_obtain_token random flaky Demo.loads 2 installer start).1.1 = Return jwt.
Proof.
  rewrite (obtain_token_returns_body random flaky Demo.loads 2 installer start
             1 1 login_ok token_ok
             {[ "message" := JString "success";
                "session_id" := JString "f3a9";
                "manager_token" := JString "mt-1";
                "is_consumer" := JBool true ]}
             (JBool true) (JString "mt-1") (JString "f3a9")).
  - reflexivity.
  - exact installer_has_credentials.
  - lia.
  - lia.
  - split; [|reflexivity].
    intros [|k] Hk; [|lia]. exists (HTTPXError ConnectTimeout). by split.
  - reflexivity.
  - vm_compute. reflexivity.
  - reflexivity.
  - reflexivity.
  - reflexivity.
  - split; [|reflexivity].
    intros [|k] Hk; [|lia]. exists (HTTPXError ReadError). by split.
  - reflexivity.
Defined.

Lemma obtain_token_undecodable_login_witness :
  (_obtain_token random (scripted [Responds login_html]) Demo.loads 1
     installer start).1.1
  = Raise (EnvoyAuthenticationError
      "Unable to decode response from Enlighten: 200: <html>Service Unavailable</html>").
Proof.
  rewrite (proj1 (obtain_token_undecodable_login random
                    (scripted [Responds login_html]) Demo.loads 1 installer
                    start 0 login_html installer_has_credentials
                    (Nat.lt_0_succ 0)
                    (conj (λ k (Hk : k < 0), False_ind _ (Nat.nlt_0_r k Hk))
                          eq_refl)
                    eq_refl eq_refl)).
  reflexivity.
Defined.

Lemma post_retries_transport_errors_only_witness :
  let r := mkResponse 503 "Service Unavailable" ∅ in
  let cloud := scripted [timeout; broken; Responds r] in
  (_post_json_with_cloud_client random cloud 3 TokenAuth.TOKEN_URL None None
     installer start).1.1 = Return r
  ∧ posts (_post_json_with_cloud_client random cloud 3 TokenAuth.TOKEN_URL
             None None installer start).2 = 3.
Proof.
  cbv zeta.
  assert (∀ k, (0 <= random k)%Q ∧ (random k <= 1)%Q) as Hrand.
  { intros k. split; discriminate. }
  rewrite (proj1 (proj2 (post_retries_transport_errors_only random
             (scripted [timeout; broken;
                        Responds (mkResponse 503 "Service Unavailable" ∅)])
             Demo.loads TokenAuth.TOKEN_URL None None installer start Hrand))
           2 (mkResponse 503 "Service Unavailable" ∅) 3).
  - split; reflexivity.
  - lia.
  - split; [|reflexivity].
    intros [|[|k]] Hk; [| |lia].
    + exists (HTTPXError ConnectTimeout). by split.
    + exists (HTTPXError ReadError). by split.
Defined.


(** C9 does not hold as stated: [setup] has never returned on this
    instance, and yet [manager_token] and [is_consumer] return values. *)
Lemma unverified_reads_of_cloud_state :
  never_set_up refused.1.2
  ∧ refused.1.1
    = Raise (EnvoyAuthenticationError
        "Unable to obtain token for Envoy authentication from https://entrez.enphaseenergy.com/tokens: 500: Internal Server Error")
  ∧ TokenAuth.manager_token refused.1.2 = Return (JString "mt-1")
  ∧ TokenAuth.is_consumer refused.1.2 = Return (JBool true).
Proof.
  split; [|by split_and!; vm_compute].
  eapply (never_setup random
            (scripted [Responds login_ok; Responds token_refused]) Demo.loads
            1 (device 200) installer start refused.1.1 refused.1.2 refused.2).
  - apply never_init.
  - vm_compute. reflexivity.
  - by vm_compute.
Qed.

Lemma unverified_reads_raise_attribute_error_witness :
  TokenAuth.cookies refused.1.2 = Raise (AttributeError "_cookies").
Proof.
  apply (proj1 (unverified_reads_raise_attribute_error refused.1.2
                  (never_setup random
                     (scripted [Responds login_ok; Responds token_refused])
                     Demo.loads 1 (device 200) installer start refused.1.1
                     refused.1.2 refused.2
                     (never_init _ _ _ _ _) eq_refl
                     (λ H : refused.1.1 = Return (),
                        eq_ind refused.1.1
                          (λ r, match r with Return _ => False | _ => True end)
                          I _ H)))).
Defined.

(** C10 does not hold as stated: a login response whose JSON text is not an
    object lacks the three entries, and [_obtain_token] raises [TypeError],
    not [KeyError]. *)
Lemma obtain_token_login_array :
  Demo.loads (text login_list) = Some (JArray [])
  ∧ getitem (JArray []) "is_consumer" = Raise TypeError
  ∧ (_obtain_token random (scripted [Responds login_list]) Demo.loads 1
       installer start).1.1 = Raise TypeError
  ∧ ¬ ∃ key, (_obtain_token random (scripted [Responds login_list])
                Demo.loads 1 installer start).1.1 = Raise (KeyError key).
Proof.
  split_and!; try (by vm_compute). by intros [key [=]].
Qed.

Lemma obtain_token_incomplete_login_witness :
  _obtain_token random (scripted [Responds login_partial]) Demo.loads 1
    installer start
  = (Raise (KeyError "manager_token"),
     set_is_consumer (JBool true) installer,
     after_attempts random TokenAuth.JSON_LOGIN_URL (login_form installer)
       None 0 start).
Proof.
  eapply (obtain_token_incomplete_login random
            (scripted [Responds login_partial]) Demo.loads 1 installer start 0
            login_partial
            (JObject {[ "is_consumer" := JBool true;
                        "session_id" := JString "f3a9" ]})).
  - exact installer_has_credentials.
  - lia.
  - split; [|reflexivity]. intros k Hk. lia.
  - reflexivity.
  - vm_compute. reflexivity.
  - reflexivity.
  - reflexivity.
  - reflexivity.
Defined.

(** * The further properties on the scenarios *)

Import Cases.

Lemma flaky_login :
  answered_after flaky 0 1 TokenAuth.JSON_LOGIN_URL (login_form installer)
    None login_ok.
Proof.
  split; [|reflexivity].
  intros [|k] Hk; [|lia]. exists (HTTPXError ConnectTimeout). by split.
Defined.

Lemma flaky_token body :
  answered_after flaky 2 1 TokenAuth.TOKEN_URL None body token_ok.
Proof.
  split; [|reflexivity].
  intros [|k] Hk; [|lia]. exists (HTTPXError ReadError). by split.
Defined.

Lemma scripted_first script r url data body :
  script !! 0 = Some (Responds r) →
  answered_after (scripted script) 0 0 url data body r.
Proof.
  intros H. split; [intros k Hk; lia|]. unfold scripted. simpl. by rewrite H.
Defined.

Lemma scripted_second script r url data body :
  script !! 1 = Some (Responds r) →
  answered_after (scripted script) 1 0 url data body r.
Proof.
  intros H. split; [intros k Hk; lia|]. unfold scripted. simpl. by rewrite H.
Defined.

Lemma setup_raises_witness :
  setup_error (scripted [Responds login_ok; Responds token_ok]) (device 401)
    (EnvoyAuthenticationError not_verified_msg).
Proof.
  apply (setup_raises random
           (scripted [Responds login_ok; Responds token_ok]) Demo.loads 1
           (device 401) installer start _ rejected.1.2 rejected.2).
  vm_compute. reflexivity.
Defined.

Lemma setup_traffic_witness :
  ∃ evs, trace established.2 = trace start ++ evs
         ∧ Forall (allowed_event installer) evs.
Proof.
  apply (setup_traffic random flaky Demo.loads 2 (device 200) installer start
           established.1.1 established.1.2 established.2).
  vm_compute. reflexivity.
Defined.

Lemma no_credentials_no_traffic_witness :
  setup random flaky Demo.loads 2 (device 200) no_password start
  = (Raise (EnvoyAuthenticationError no_credentials_msg), no_password, start).
Proof.
  apply (no_credentials_no_traffic random flaky Demo.loads 2 (device 200)
           no_password start); reflexivity.
Defined.

Lemma no_serial_no_traffic_witness :
  setup random flaky Demo.loads 2 (device 200) no_serial start
  = (Raise (EnvoyAuthenticationError no_serial_msg), no_serial, start).
Proof.
  apply (no_serial_no_traffic random flaky Demo.loads 2 (device 200)
           no_serial start); reflexivity.
Defined.

Lemma login_refused_witness :
  _obtain_token random (scripted [Responds login_denied]) Demo.loads 1
    installer start
  = (Raise (EnvoyAuthenticationError (login_failed_msg login_denied)),
     installer,
     after_attempts random TokenAuth.JSON_LOGIN_URL (login_form installer)
       None 0 start).
Proof.
  apply (login_refused random (scripted [Responds login_denied]) Demo.loads 1
           (device 200) installer start 0 login_denied).
  - exact installer_has_credentials.
  - lia.
  - by apply scripted_first.
  - discriminate.
Defined.

Lemma token_refused_after_login_witness :
  ∃ self' w',
    _obtain_token random (scripted [Responds login_ok; Responds token_refused])
      Demo.loads 1 installer start
    = (Raise (EnvoyAuthenticationError (token_failed_msg token_refused)),
       self', w')
    ∧ _is_consumer self' = Bound (JBool true)
    ∧ _manager_token self' = Bound (JString "mt-1")
    ∧ _token self' = None
    ∧ posts w' = 2.
Proof.
  apply (token_refused_after_login random
           (scripted [Responds login_ok; Responds token_refused]) Demo.loads 1
           installer start 0 0 login_ok token_refused
           {[ "message" := JString "success";
              "session_id" := JString "f3a9";
              "manager_token" := JString "mt-1";
              "is_consumer" := JBool true ]}
           (JBool true) (JString "mt-1") (JString "f3a9")).
  - exact installer_has_credentials.
  - lia.
  - lia.
  - by apply scripted_first.
  - reflexivity.
  - vm_compute. reflexivity.
  - reflexivity.
  - reflexivity.
  - reflexivity.
  - by apply scripted_second.
  - discriminate.
Defined.

Lemma setup_returns_witness :
  ∃ t hdrs req,
    _token established.1.2 = Some t ∧ t ≠ ""
    ∧ TokenAuth.headers established.1.2 = Return hdrs
    ∧ device 200 (TokenAuth.get_endpoint_url established.1.2
                    "/auth/check_jwt") hdrs = Responds req
    ∧ status_code req = 200%Z
    ∧ TokenAuth.cookies established.1.2 = Return (resp_cookies req)
    ∧ last (trace established.2)
      = Some (EvGet (TokenAuth.get_endpoint_url established.1.2
                       "/auth/check_jwt") hdrs).
Proof.
  apply (setup_returns random flaky Demo.loads 2 (device 200) installer
           start).
  vm_compute. reflexivity.
Defined.

Lemma setup_round_trip_witness :
  ∃ w', established
        = (Return (),
           set_cookies {[ "sessionId" := "bEWbDyXx" ]}
             (set_token (Some jwt)
                (set_manager_token (JString "mt-1")
                   (set_is_consumer (JBool true) installer))),
           w')
        ∧ posts w' = 4
        ∧ last (trace w')
          = Some (EvGet (TokenAuth.get_endpoint_url installer
                           "/auth/check_jwt")
                    {[ "Authorization" := "Bearer " +:+ jwt ]}).
Proof.
  refine (setup_round_trip random flaky Demo.loads 2 (device 200) installer
            start 1 1 login_ok token_ok
            {[ "message" := JString "success";
               "session_id" := JString "f3a9";
               "manager_token" := JString "mt-1";
               "is_consumer" := JBool true ]}
            (JBool true) (JString "mt-1") (JString "f3a9")
            (mkResponse 200 "" {[ "sessionId" := "bEWbDyXx" ]})
            _ _ _ _ _ _ _ _ _ _ _ _ _ _ _).
  - reflexivity.
  - exact installer_has_credentials.
  - lia.
  - lia.
  - exact flaky_login.
  - reflexivity.
  - vm_compute. reflexivity.
  - reflexivity.
  - reflexivity.
  - reflexivity.
  - apply flaky_token.
  - reflexivity.
  - discriminate.
  - reflexivity.
  - reflexivity.
Defined.

Lemma setup_empty_token_body_witness :
  ∃ self' w' evs,
    setup random (scripted [Responds login_ok; Responds token_empty])
      Demo.loads 1 (device 200) installer start
    = (Raise (EnvoyAuthenticationError
         "Unable to obtain token for Envoy authentication."), self', w')
    ∧ trace w' = trace start ++ evs
    ∧ Forall cloud_event evs
    ∧ _cookies self' = _cookies installer.
Proof.
  apply (setup_empty_token_body random
           (scripted [Responds login_ok; Responds token_empty]) Demo.loads 1
           (device 200) installer start 0 0 login_ok token_empty
           {[ "message" := JString "success";
              "session_id" := JString "f3a9";
              "manager_token" := JString "mt-1";
              "is_consumer" := JBool true ]}
           (JBool true) (JString "mt-1") (JString "f3a9")).
  - reflexivity.
  - exact installer_has_credentials.
  - lia.
  - lia.
  - by apply scripted_first.
  - reflexivity.
  - vm_compute. reflexivity.
  - reflexivity.
  - reflexivity.
  - reflexivity.
  - by apply scripted_second.
  - reflexivity.
  - reflexivity.
Defined.

Lemma established_returned :
  setup random flaky Demo.loads 2 (device 200) installer start
  = (Return (), established.1.2, established.2).
Proof. vm_compute. reflexivity. Defined.

Lemma setup_again_skips_cloud_witness :
  posts (setup random (scripted []) Demo.loads 0 unreachable established.1.2
           established.2).2 = posts established.2.
Proof.
  pose proof (setup_again_skips_cloud random flaky Demo.loads 2 (device 200)
                installer start established.1.2 established.2
                random (scripted []) Demo.loads 0 unreachable established.2
                established_returned) as P.
  destruct (setup random (scripted []) Demo.loads 0 unreachable
              established.1.2 established.2) as [[r self3] w3].
  exact (proj1 P).
Defined.

Lemma setup_get_not_retried_witness :
  (setup random (scripted []) Demo.loads 0 unreachable holder start).1.1
  = Raise (HTTPXError ConnectTimeout).
Proof.
  refine (proj1 (setup_get_not_retried random (scripted []) Demo.loads 0
                   unreachable holder start _ holder
                   (mkWorld 0 0 [EvGet (check_jwt_url holder)
                                   (bearer holder)])
                   [EvGet (check_jwt_url holder) (bearer holder)]
                   (check_jwt_url holder) (bearer holder)
                   (HTTPXError ConnectTimeout) _ _ _ _)).
  - vm_compute. reflexivity.
  - reflexivity.
  - apply list_elem_of_here.
  - reflexivity.
Defined.

Lemma refresh_keeps_session_witness :
  let self' := (refresh random (scripted [Responds login_denied]) Demo.loads
                  1 established.1.2 start).1.2 in
  frame established.1.2 self' ∧ _token self' = Some jwt.
Proof.
  cbv zeta.
  pose proof (refresh_keeps_session random (scripted [Responds login_denied])
                Demo.loads 1 established.1.2 start) as P.
  destruct (refresh random (scripted [Responds login_denied]) Demo.loads 1
              established.1.2 start) as [[r self'] w'] eqn:E.
  destruct (P r self' w' eq_refl) as (Hframe & Htoken & _).
  split; [exact Hframe|]. simpl. rewrite Htoken; [reflexivity|].
  intros ->. vm_compute in E. discriminate E.
Defined.



Lemma login_values_after_round_trip_witness :
  let self' :=
    (_obtain_token random
       (scripted [Responds login_null_manager; Responds token_ok])
       Demo.loads 1 installer start).1.2 in
  TokenAuth.is_consumer self' = Return (JBool false)
  ∧ TokenAuth.manager_token self' = Raise AssertionError.
Proof.
  refine (login_values_after_round_trip random
            (scripted [Responds login_null_manager; Responds token_ok])
            Demo.loads 1 installer start 0 0 login_null_manager token_ok
            {[ "session_id" := JString "f3a9";
               "manager_token" := JNull;
               "is_consumer" := JBool false ]}
            (JBool false) JNull (JString "f3a9")
            _ _ _ _ _ _ _ _ _ _ _).
  - exact installer_has_credentials.
  - lia.
  - lia.
  - by apply scripted_first.
  - reflexivity.
  - vm_compute. reflexivity.
  - reflexivity.
  - reflexivity.
  - reflexivity.
  - by apply scripted_second.
  - reflexivity.
Defined.

Lemma wait_two_then_three_witness :
  (wait cloud_retry_policy 1 (random 0) == 2 * random 0)%Q
  ∧ (3 * random 0 * (1 - (1 # 9007199254740992))
     <= wait cloud_retry_policy 2 (random 0))%Q
  ∧ (wait cloud_retry_policy 2 (random 0)
     <= 3 * random 0 * (1 + (1 # 9007199254740992)))%Q.
Proof.
  apply (wait_two_then_three 0 (random 0)); discriminate.
Defined.

Lemma post_hands_back_last_answer_witness :
  ∃ n, n < 3
    ∧ retryable_failures (scripted [timeout; broken; Responds token_refused])
        0 n TokenAuth.TOKEN_URL None None
    ∧ installer = installer
    ∧ mkWorld 3 2
        [EvPost TokenAuth.TOKEN_URL None None; EvSleep (2 # 2);
         EvPost TokenAuth.TOKEN_URL None None; EvSleep (3 # 2);
         EvPost TokenAuth.TOKEN_URL None None]
      = after_attempts random TokenAuth.TOKEN_URL None None n start
    ∧ scripted [timeout; broken; Responds token_refused] (0 + n)
        TokenAuth.TOKEN_URL None None = Responds token_refused.
Proof.
  refine (post_hands_back_last_answer random
            (scripted [timeout; broken; Responds token_refused]) 3
            TokenAuth.TOKEN_URL None None installer start
            (Return token_refused) installer _ _ _).
  - vm_compute. reflexivity.
  - discriminate.
Defined.

Lemma expire_timestamp_too_few_segments_witness :
  expire_timestamp Demo.loads Demo.json_error Demo.base64url_decode
    (TokenAuth.init "envoy.local" None None None
       (Some "eyJhbGciOiJIUzI1NiJ9.eyJleHAiOjE3MDAwMDAwMDB9"))
  = Raise (DecodeError "Not enough segments").
Proof.
  refine (expire_timestamp_too_few_segments Demo.loads Demo.json_error
            Demo.base64url_decode
            _ "eyJhbGciOiJIUzI1NiJ9.eyJleHAiOjE3MDAwMDAwMDB9" _ _).
  - reflexivity.
  - vm_compute. lia.
Defined.

Lemma expire_timestamp_ignores_signature_witness :
  expire_timestamp Demo.loads Demo.json_error Demo.base64url_decode holder
  = expire_timestamp Demo.loads Demo.json_error Demo.base64url_decode
      (TokenAuth.init "envoy.local" None None None (Some jwt_forged)).
Proof.
  refine (expire_timestamp_ignores_signature Demo.loads Demo.json_error
            Demo.base64url_decode demo_decode_encode holder _
            "eyJhbGciOiJIUzI1NiIsInR5cCI6IkpXVCJ9" "eyJleHAiOjE3MDAwMDAwMDB9"
            "sig" "forged" _ _ _).
  - unfold no_dot. apply (bool_decide_unpack _). by vm_compute.
  - vm_compute. reflexivity.
  - vm_compute. reflexivity.
Defined.

Lemma expire_timestamp_without_exp_witness :
  expire_timestamp Demo.loads Demo.json_error Demo.base64url_decode
    (TokenAuth.init "envoy.local" None None None (Some jwt_no_exp))
  = Raise (KeyError "exp").
Proof.
  refine (expire_timestamp_without_exp Demo.loads Demo.json_error
            Demo.base64url_decode demo_decode_encode _
            (Demo.dq "{'alg':'HS256','typ':'JWT'}")
            {[ "alg" := JString "HS256"; "typ" := JString "JWT" ]}
            (Demo.dq "{'iss':'Entrez'}")
            {[ "iss" := JString "Entrez" ]}
            "sig" _ _ _ _ _).
  - vm_compute. reflexivity.
  - vm_compute. reflexivity.
  - split_and!; [by left|done|done].
  - vm_compute. reflexivity.
  - reflexivity.
Defined.
